(** * vite-plugin-wasm-pack: a shallow embedding of src/index.ts

    The plugin keeps three JS [Map]s built once from the crate paths, and
    implements the Vite hooks [resolveId], [load], [buildStart],
    [configureServer] and [buildEnd] over them.  Node's posix [path]
    functions, JS [Map]s (insertion ordered), the child-process call and the
    host's plugin context are modelled below as they behave. *)

From Stdlib Require Import String Ascii List Bool Arith Lia.
Set Warnings "-register-all".
Import ListNotations.
Open Scope string_scope.


(* ------------------------------------------------------------------ *)
(** ** Strings *)

Module Str.

Definition slash : ascii := "/"%char.

(** Split a string on ['/'], keeping empty pieces ("a//b" gives
    ["a"; ""; "b"]). *)
Fixpoint split_slash_aux (s : string) (cur : string) : list string :=
  match s with
  | EmptyString => [cur]
  | String c rest =>
      if Ascii.eqb c slash then cur :: split_slash_aux rest EmptyString
      else split_slash_aux rest (cur ++ String c EmptyString)
  end.

Definition split_slash (s : string) : list string := split_slash_aux s EmptyString.

(** [xs.join('/')] *)
Fixpoint join_slash (xs : list string) : string :=
  match xs with
  | [] => EmptyString
  | [x] => x
  | x :: rest => x ++ "/" ++ join_slash rest
  end.

Definition starts_with_slash (s : string) : bool :=
  match s with
  | String c _ => Ascii.eqb c slash
  | EmptyString => false
  end.

Fixpoint last_char (s : string) : option ascii :=
  match s with
  | EmptyString => None
  | String c EmptyString => Some c
  | String _ rest => last_char rest
  end.

Definition ends_with_slash (s : string) : bool :=
  match last_char s with
  | Some c => Ascii.eqb c slash
  | None => false
  end.

(** Whether a string contains ['/']. *)
Fixpoint has_slash (s : string) : bool :=
  match s with
  | EmptyString => false
  | String c rest => Ascii.eqb c slash || has_slash rest
  end.

(** [s.endsWith(suf)] *)
Definition ends_with (s suf : string) : bool :=
  Nat.leb (String.length suf) (String.length s) &&
  String.eqb (substring (String.length s - String.length suf) (String.length suf) s) suf.

(** [String.prototype.toLowerCase] on ASCII text. *)
Definition lower_char (c : ascii) : ascii :=
  let n := nat_of_ascii c in
  if Nat.leb 65 n && Nat.leb n 90 then ascii_of_nat (n + 32) else c.

Fixpoint to_lower (s : string) : string :=
  match s with
  | EmptyString => EmptyString
  | String c rest => String (lower_char c) (to_lower rest)
  end.

(** [s.indexOf(pat)] ([None] for -1). *)
Definition index_of (pat s : string) : option nat := index 0 pat s.

(** [s.replace(pat, "")] with a string pattern: only the first occurrence
    is replaced. *)
Definition replace_first_empty (pat s : string) : string :=
  match index_of pat s with
  | Some n => substring 0 n s ++ substring (n + String.length pat) (String.length s - (n + String.length pat)) s
  | None => s
  end.

End Str.

(* ------------------------------------------------------------------ *)
(** ** Node's posix [path] module *)

Module Path.
Import Str.

(** [normalizeString]: resolve "." and ".." segments and drop empty ones;
    a ".." with nothing to pop is kept only when [allow_above_root]. *)
Fixpoint normalize_segs (allow_above_root : bool) (acc : list string)
    (segs : list string) : list string :=
  match segs with
  | [] => acc
  | s :: rest =>
      if String.eqb s "" || String.eqb s "." then normalize_segs allow_above_root acc rest
      else if String.eqb s ".." then
        match acc with
        | last :: acc' =>
            if String.eqb last ".." then
              normalize_segs allow_above_root
                (if allow_above_root then ".." :: acc else acc) rest
            else normalize_segs allow_above_root acc' rest
        | [] =>
            normalize_segs allow_above_root
              (if allow_above_root then [".."] else []) rest
        end
      else normalize_segs allow_above_root (s :: acc) rest
  end.

Definition normalize_string (p : string) (allow_above_root : bool) : string :=
  join_slash (rev (normalize_segs allow_above_root [] (split_slash p))).

(** [path.normalize] *)
Definition normalize (p : string) : string :=
  if String.eqb p "" then "." else
  let is_abs := starts_with_slash p in
  let trailing := ends_with_slash p in
  let p' := normalize_string p (negb is_abs) in
  if String.eqb p' "" then
    (if is_abs then "/" else if trailing then "./" else ".")
  else
    let p'' := if trailing then p' ++ "/" else p' in
    if is_abs then "/" ++ p'' else p''.

(** [path.join(...args)] *)
Definition join (args : list string) : string :=
  let parts := filter (fun a => negb (String.eqb a "")) args in
  match parts with
  | [] => "."
  | _ => normalize (join_slash parts)
  end.

(** [path.resolve(...args)], with [cwd] standing for [process.cwd()]:
    arguments are prepended from the right until one is absolute. *)
Fixpoint resolve_from_right (args : list string) : string * bool :=
  match args with
  | [] => ("", false)
  | a :: rest =>
      let '(r, abs) := resolve_from_right rest in
      if abs then (r, true)
      else if String.eqb a "" then (r, false)
      else (a ++ "/" ++ r, starts_with_slash a)
  end.

Definition resolve (cwd : string) (args : list string) : string :=
  let '(r, abs) := resolve_from_right args in
  let '(r, abs) := if abs then (r, true) else (cwd ++ "/" ++ r, starts_with_slash cwd) in
  let r' := normalize_string r (negb abs) in
  if abs then "/" ++ r'
  else if String.eqb r' "" then "." else r'.

(** [path.basename(p)]: the last non-empty segment. *)
Definition basename (p : string) : string :=
  last (filter (fun a => negb (String.eqb a "")) (split_slash p)) "".

(** [path.dirname(p)]: everything before the last slash that follows a
    non-slash character (scanning from index 1); "/" or "." when none. *)
Fixpoint dirname_end (cs : list ascii) (i : nat) (matched_slash : bool)
    : option nat :=
  (* [cs] is the reversed character list; [i] the index of its head *)
  match cs with
  | [] => None
  | c :: rest =>
      if Nat.eqb i 0 then None
      else if Ascii.eqb c slash then
        if matched_slash then dirname_end rest (i - 1) matched_slash else Some i
      else dirname_end rest (i - 1) false
  end.

Definition dirname (p : string) : string :=
  if String.eqb p "" then "." else
  let has_root := starts_with_slash p in
  match dirname_end (rev (list_ascii_of_string p)) (String.length p - 1) true with
  | None => if has_root then "/" else "."
  | Some e => if has_root && Nat.eqb e 1 then "//" else substring 0 e p
  end.

End Path.

(* ------------------------------------------------------------------ *)
(** ** JS [Map] with string keys

    A [Map] iterates in insertion order; [set] on a present key replaces the
    value in place, on an absent key appends the entry. *)

Module JsMap.

Definition t (V : Type) := list (string * V).

Definition empty {V : Type} : t V := [].

Fixpoint set {V : Type} (k : string) (v : V) (m : t V) : t V :=
  match m with
  | [] => [(k, v)]
  | (k', v') :: rest =>
      if String.eqb k k' then (k, v) :: rest else (k', v') :: set k v rest
  end.

Fixpoint get {V : Type} (k : string) (m : t V) : option V :=
  match m with
  | [] => None
  | (k', v') :: rest => if String.eqb k k' then Some v' else get k rest
  end.

Definition has {V : Type} (k : string) (m : t V) : bool :=
  match get k m with Some _ => true | None => false end.

Definition keys {V : Type} (m : t V) : list string := map fst m.

(** The value of the last pair with key [k] in a sequence of [set]s. *)
Definition last_binding {V : Type} (k : string) (ops : list (string * V)) : option V :=
  fold_left (fun acc kv => if String.eqb k (fst kv) then Some (snd kv) else acc) ops None.

(** The keys of [ks] in order of first occurrence. *)
Definition first_occurrences (ks : list string) : list string :=
  fold_left (fun acc k => if existsb (String.eqb k) acc then acc else (acc ++ [k])%list) ks [].

(** The map obtained by [set]ting the pairs of [ops] in order. *)
Definition of_sets {V : Type} (ops : list (string * V)) : t V :=
  fold_left (fun m kv => set (fst kv) (snd kv) m) ops empty.

End JsMap.

(* ------------------------------------------------------------------ *)
(** ** The crate registry (plugin construction) *)

Module Registry.

(** [type CrateInfoType = { path: string; name: string }] *)
Record CrateInfoType := { ci_path : string; ci_name : string }.

Record t := {
  wasmMap : JsMap.t CrateInfoType;
  cratePathLookup : JsMap.t string;
  crateNameLookup : JsMap.t string
}.

Definition empty : t := {| wasmMap := []; cratePathLookup := []; crateNameLookup := [] |}.

(** [crates: string[] | string] *)
Inductive crates_arg := CratesOne (s : string) | CratesMany (l : list string).

(** [const cratePaths = isString(crates) ? [crates] : crates] *)
Definition cratePaths (crates : crates_arg) : list string :=
  match crates with CratesOne s => [s] | CratesMany l => l end.

(** [_crateName(cratePath) = path.basename(path.resolve(cratePath))] *)
Definition _crateName (cwd cratePath : string) : string :=
  Path.basename (Path.resolve cwd [cratePath]).

(** The [_bg.wasm] file name of a crate. *)
Definition wasm_file (crateName : string) : string := crateName ++ "_bg.wasm".

(** One iteration of [cratePaths.forEach]. *)
Definition register (cwd : string) (reg : t) (cratePath : string) : t :=
  let crateName := _crateName cwd cratePath in
  let wasmFile := crateName ++ "_bg.wasm" in
  let localPath := Path.resolve cwd ["node_modules"; crateName; wasmFile] in
  {| wasmMap := JsMap.set wasmFile {| ci_path := localPath; ci_name := crateName |} (wasmMap reg);
     cratePathLookup := JsMap.set cratePath wasmFile (cratePathLookup reg);
     crateNameLookup := JsMap.set crateName wasmFile (crateNameLookup reg) |}.

Definition build (cwd : string) (paths : list string) : t :=
  fold_left (register cwd) paths empty.

(** The pair each crate path contributes to each of the three maps. *)
Definition wasm_entry (cwd cratePath : string) : string * CrateInfoType :=
  let crateName := _crateName cwd cratePath in
  (wasm_file crateName,
   {| ci_path := Path.resolve cwd ["node_modules"; crateName; wasm_file crateName];
      ci_name := crateName |}).

Definition path_entry (cwd cratePath : string) : string * string :=
  (cratePath, wasm_file (_crateName cwd cratePath)).

Definition name_entry (cwd cratePath : string) : string * string :=
  (_crateName cwd cratePath, wasm_file (_crateName cwd cratePath)).

End Registry.

(* ------------------------------------------------------------------ *)
(** ** Outcomes of JS code: a value or a thrown error / rejected promise *)

Inductive outcome (A : Type) := Ret (a : A) | Exc (e : string).
Arguments Ret {A} a.
Arguments Exc {A} e.

Definition prefix : string := "@wasm-pack@".

(* ------------------------------------------------------------------ *)
(** ** [resolveId] and [load] *)

Module Hooks.
Import Registry.

(** [resolveId(id)]; [None] is [null]. *)
Definition resolveId (reg : Registry.t) (id : string) : option string :=
  if JsMap.has id (crateNameLookup reg) then Some (prefix ++ id) else None.

(** [fs.promises.readFile(p, {encoding: 'utf-8'})] over a text file system. *)
Definition read_text (fs : string -> option string) (p : string) : outcome string :=
  match fs p with
  | Some txt => Ret txt
  | None => Exc ("Error: ENOENT: no such file or directory, open '" ++ p ++ "'")
  end.

(** [load(id)]; [Ret None] is a promise resolving to [undefined]. *)
Definition load (fs : string -> option string) (id : string) : outcome (option string) :=
  match Str.index_of prefix id with
  | Some 0 =>
      let id' := Str.replace_first_empty prefix id in
      let modulejs := Path.join ["./node_modules"; id'; id' ++ ".js"] in
      (* = glue_path id' *)
      match read_text fs modulejs with
      | Ret code => Ret (Some code)
      | Exc e => Exc e
      end
  | _ => Ret None
  end.

(** The glue-code path [path.join('./node_modules', name, name + '.js')]. *)
Definition glue_path (name : string) : string :=
  Path.join ["./node_modules"; name; name ++ ".js"].

(** What the dev-server middleware does with one request. *)
Inductive mw_result :=
  | MwNext
  | MwRespond (status : nat) (headers : list (string * string))
      (body : option (list Byte.byte))
  | MwNothing.

(** The middleware installed by [configureServer]; [url] is [req.url]
    ([None] when it is not a string), [fs] the bytes on disk that
    [fs.createReadStream(entry.path)] streams ([None]: unreadable). *)
Definition middleware (reg : Registry.t) (fs : string -> option (list Byte.byte))
    (url : option string) : mw_result :=
  match url with
  | None => MwNothing
  | Some u =>
      let wasmFile := Path.basename u in
      match JsMap.get wasmFile (wasmMap reg) with
      | Some entry =>
          if Str.ends_with (Str.to_lower wasmFile) ".wasm" then
            MwRespond 200
              [("Cache-Control", "no-cache, no-store, must-revalidate");
               ("Content-Type", "application/wasm")]
              (fs (ci_path entry))
          else MwNext
      | None => MwNext
      end
  end.

(** An asset passed to [this.emitFile]. *)
Record asset := { a_type : string; a_fileName : string; a_source : list Byte.byte }.

(** [buildEnd]: [wasmMap.forEach] in insertion order; [fs.readFileSync]
    throws on a missing file, which ends the loop with the assets emitted
    so far. *)
Fixpoint emit_all (fs : string -> option (list Byte.byte))
    (entries : JsMap.t CrateInfoType) (emitted : list asset)
    : outcome unit * list asset :=
  match entries with
  | [] => (Ret tt, emitted)
  | (fileName, crate) :: rest =>
      match fs (ci_path crate) with
      | Some bytes =>
          emit_all fs rest
            (emitted ++ [{| a_type := "asset"; a_fileName := "assets/" ++ fileName;
                            a_source := bytes |}])
      | None =>
          (Exc ("Error: ENOENT: no such file or directory, open '" ++ ci_path crate ++ "'"),
           emitted)
      end
  end.

Definition buildEnd (reg : Registry.t) (fs : string -> option (list Byte.byte))
    : outcome unit * list asset :=
  emit_all fs (wasmMap reg) [].

End Hooks.

(* ------------------------------------------------------------------ *)
(** ** [buildStart]: the world, the host context and the child process *)

Module Build.
Import Registry.

(** JSON values as [JSON.parse] produces them (number literals kept as
    text). *)
Inductive jval :=
  | JNull | JBool (b : bool) | JNum (lit : string) | JStr (s : string)
  | JArr (items : list jval) | JObj (fields : list (string * jval)).

(** The JS value [fs.readJson] hands back: arrays and objects are objects
    that can take extra properties. *)
Inductive rval :=
  | RPrim (j : jval)
  | RArr (items : list jval) (props : list (string * jval))
  | RObj (fields : list (string * jval)).

Definition of_json (j : jval) : rval :=
  match j with
  | JArr l => RArr l []
  | JObj f => RObj f
  | _ => RPrim j
  end.

(** [JSON.stringify] as used by [fs.writeJson]: an array is written by its
    indices only. *)
Definition to_json (v : rval) : jval :=
  match v with
  | RPrim j => j
  | RArr l _ => JArr l
  | RObj f => JObj f
  end.

(** [pkgJson.type = 'module'] in strict mode: a new own property is
    appended, an existing one replaced in place; on a primitive it throws a
    TypeError. *)
Definition set_type_module (v : rval) : outcome rval :=
  match v with
  | RObj f => Ret (RObj (JsMap.set "type" (JStr "module") f))
  | RArr l props => Ret (RArr l (JsMap.set "type" (JStr "module") props))
  | RPrim JNull => Exc "TypeError: Cannot set properties of null (setting 'type')"
  | RPrim _ => Exc "TypeError: Cannot create property 'type' on primitive"
  end.

(** A file as far as [readJson] is concerned. *)
Inductive fentry := FJson (j : jval) | FText (s : string).

(** The call [exec(command, callback)]: no options, so the child runs in the
    working directory of the Vite process. *)
Record exec_call := { ec_command : string; ec_cwd : option string }.

(** What the child process reports: [error] set, or [stdout]/[stderr]
    together with the files the tool wrote. *)
Inductive exec_result :=
  | ExecError (err : string)
  | ExecDone (stdout stderr : string) (written : list (string * fentry)).

Inductive diag := Warn (msg : string) | Error (msg : string).

Record world := {
  w_fs : string -> option fentry;
  w_exec : exec_call -> exec_result;
  w_log : list diag;
  w_execs : list exec_call
}.

(** The host's plugin context: whether [this.error] throws after
    reporting. *)
Record host := { error_throws : bool }.

(** Vite / Rollup: [this.error] has return type [never]; it throws. *)
Definition vite_host : host := {| error_throws := true |}.

Definition M (A : Type) := world -> outcome A * world.

Definition ret {A} (a : A) : M A := fun w => (Ret a, w).
Definition throw {A} (e : string) : M A := fun w => (Exc e, w).
Definition bind {A B} (m : M A) (k : A -> M B) : M B :=
  fun w => match m w with
           | (Ret a, w') => k a w'
           | (Exc e, w') => (Exc e, w')
           end.
Definition catch {A} (m : M A) (h : string -> M A) : M A :=
  fun w => match m w with
           | (Exc e, w') => h e w'
           | r => r
           end.
Definition lift {A} (o : outcome A) : M A := fun w => (o, w).

Notation "'let!' x := c 'in' k" := (bind c (fun x => k))
  (at level 200, x name, c at level 100, k at level 200).
Notation "c ;; k" := (bind c (fun _ => k)) (at level 100, right associativity).

Definition write_file (p : string) (e : fentry) (fs : string -> option fentry)
    : string -> option fentry :=
  fun q => if String.eqb q p then Some e else fs q.

Definition apply_writes (ws : list (string * fentry)) (fs : string -> option fentry)
    : string -> option fentry :=
  fold_left (fun fs' pe => write_file (fst pe) (snd pe) fs') ws fs.

Definition log (d : diag) : M unit :=
  fun w => (Ret tt, {| w_fs := w_fs w; w_exec := w_exec w; w_log := w_log w ++ [d];
                       w_execs := w_execs w |}).

(** Running the child process once and waiting for its callback. *)
Definition exec (c : exec_call) : M exec_result :=
  fun w =>
    let r := w_exec w c in
    let fs' := match r with ExecDone _ _ ws => apply_writes ws (w_fs w) | _ => w_fs w end in
    (Ret r, {| w_fs := fs'; w_exec := w_exec w; w_log := w_log w;
               w_execs := w_execs w ++ [c] |}).

(** [fs.readJson(p)] *)
Definition readJson (p : string) : M rval :=
  fun w => match w_fs w p with
           | Some (FJson j) => (Ret (of_json j), w)
           | Some (FText _) => (Exc ("SyntaxError: " ++ p ++ ": Unexpected token in JSON"), w)
           | None => (Exc ("Error: ENOENT: no such file or directory, open '" ++ p ++ "'"), w)
           end.

(** [fs.writeJson(p, v)] *)
Definition writeJson (p : string) (v : rval) : M unit :=
  fun w => (Ret tt, {| w_fs := write_file p (FJson (to_json v)) (w_fs w);
                       w_exec := w_exec w; w_log := w_log w; w_execs := w_execs w |}).

(** [chalk.bold] with colours on. *)
Definition esc : string := String (ascii_of_nat 27) EmptyString.
Definition chalk_bold (s : string) : string := esc ++ "[1m" ++ s ++ esc ++ "[22m".

Definition this_warn (msg : string) : M unit := log (Warn msg).

Definition this_error (h : host) (msg : string) : M unit :=
  log (Error msg);; (if error_throws h then throw msg else ret tt).

(** [path.join(path.dirname(__dirname), 'node_modules', '.bin', 'wasm-pack')] *)
Definition wasmPackPath (dirname_ : string) : string :=
  Path.join [Path.dirname dirname_; "node_modules"; ".bin"; "wasm-pack"].

(** [_runWasmPackBuild(cratePath, outDir = 'pkg')]; [outDir = None] is an
    omitted argument.  [cratePath] is not used by the source. *)
Definition _runWasmPackBuild (dirname_ : string) (cratePath : string)
    (outDir : option string) : M string :=
  let outDir := match outDir with Some d => d | None => "pkg" end in
  let command := wasmPackPath dirname_ ++ " build --target web --out-dir " ++ outDir in
  let! r := exec {| ec_command := command; ec_cwd := None |} in
  match r with
  | ExecError error => throw ("wasm-pack execution error: " ++ error)
  | ExecDone _ stderr _ => ret stderr
  end.

(** The single child-process call [_runWasmPackBuild] makes. *)
Definition compile_call (dirname_ : string) (outDir : option string) : exec_call :=
  {| ec_command := wasmPackPath dirname_ ++ " build --target web --out-dir " ++
                   (match outDir with Some d => d | None => "pkg" end);
     ec_cwd := None |}.

(** The output directory [path.resolve('node_modules', crateName)]. *)
Definition local_path (cwd crateName : string) : string :=
  Path.resolve cwd ["node_modules"; crateName].

Definition pkg_json_path (cwd crateName : string) : string :=
  Path.join [local_path cwd crateName; "package.json"].

Definition error_message (crateName error : string) : string :=
  chalk_bold ("vite-plugin-wasm-pack: Couldn't wasm-pack for Rust crate " ++ crateName ++ ": " ++ String "010"%char EmptyString)
  ++ error.

(** The body of the [try] block of [prepareBuild]. *)
Definition prepare_try (dirname_ cwd cratePath : string) : M unit :=
  let crateName := _crateName cwd cratePath in
  let localPath := local_path cwd crateName in
  let! wasmPackOutput := _runWasmPackBuild dirname_ cratePath (Some localPath) in
  this_warn (chalk_bold "wasm-pack: " ++ "crate " ++ cratePath ++ " built" ++
             String "010"%char EmptyString ++ wasmPackOutput);;
  let pkgJsonPath := Path.join [localPath; "package.json"] in
  let! pkgJson := readJson pkgJsonPath in
  let! pkgJson' := lift (set_type_module pkgJson) in
  writeJson pkgJsonPath pkgJson'.

(** [prepareBuild(cratePath)] *)
Definition prepareBuild (h : host) (dirname_ cwd cratePath : string) : M unit :=
  let crateName := _crateName cwd cratePath in
  catch (prepare_try dirname_ cwd cratePath)
        (fun error => this_error h (error_message crateName error)).

(** [for await (const cratePath of cratePaths) await prepareBuild(cratePath)] *)
Fixpoint buildStart (h : host) (dirname_ cwd : string) (paths : list string) : M unit :=
  match paths with
  | [] => ret tt
  | p :: rest => prepareBuild h dirname_ cwd p;; buildStart h dirname_ cwd rest
  end.

End Build.

(* ------------------------------------------------------------------ *)
(** ** A concrete project used by the examples *)

Module Demo.
Import Registry Build.

Definition cwd : string := "/proj".
Definition dirname_ : string := "/proj/node_modules/vite-plugin-wasm-pack/dist".
Definition reg : Registry.t := Registry.build cwd ["./crates/demo"].

Definition bytes_fs (p : string) : option (list Byte.byte) :=
  if String.eqb p "/proj/node_modules/demo/demo_bg.wasm"
  then Some [Byte.x00; Byte.x61; Byte.x73; Byte.x6d] else None.

Definition text_fs (p : string) : option string :=
  if String.eqb p "node_modules/demo/demo.js" then Some "export default init;" else None.

(** A world where every compile fails. *)
Definition failing_world : world :=
  {| w_fs := fun _ => None; w_exec := fun _ => ExecError "Error: Command failed";
     w_log := []; w_execs := [] |}.

(** A world where the compile succeeds and writes the given manifest. *)
Definition manifest_world (j : jval) : world :=
  {| w_fs := fun _ => None;
     w_exec := fun _ => ExecDone "" "[INFO]: Done" [("/proj/node_modules/demo/package.json", FJson j)];
     w_log := []; w_execs := [] |}.

Definition three_crates : list string := ["./crates/alpha"; "./crates/beta"; "./crates/gamma"].

(** Only the first and the last of the three wasm files are on disk. *)
Definition gap_fs (p : string) : option (list Byte.byte) :=
  if String.eqb p "/proj/node_modules/alpha/alpha_bg.wasm" then Some [Byte.x00]
  else if String.eqb p "/proj/node_modules/gamma/gamma_bg.wasm" then Some [Byte.x01]
  else None.

End Demo.

Example path_join_ex :
  Path.join ["./node_modules"; "demo"; "demo.js"] = "node_modules/demo/demo.js".
Proof. reflexivity. Qed.

Example path_resolve_ex :
  Path.resolve "/proj" ["node_modules"; "demo"; "demo_bg.wasm"]
  = "/proj/node_modules/demo/demo_bg.wasm".
Proof. reflexivity. Qed.

Example path_resolve_ex2 :
  Path.resolve "/proj" ["../x/./crates//demo/"] = "/x/crates/demo".
Proof. reflexivity. Qed.

Example path_basename_ex : Path.basename "/a/b//" = "b".
Proof. reflexivity. Qed.

Example path_dirname_ex : Path.dirname "/usr/lib/plugin/dist" = "/usr/lib/plugin".
Proof. reflexivity. Qed.

Example demo_name : Registry._crateName Demo.cwd "./crates/demo" = "demo".
Proof. reflexivity. Qed.

Example demo_resolve : Hooks.resolveId Demo.reg "demo" = Some "@wasm-pack@demo".
Proof. reflexivity. Qed.

Example demo_load :
  Hooks.load Demo.text_fs "@wasm-pack@demo" = Ret (Some "export default init;").
Proof. reflexivity. Qed.

Example demo_serve :
  Hooks.middleware Demo.reg Demo.bytes_fs (Some "/demo_bg.wasm")
  = Hooks.MwRespond 200
      [("Cache-Control", "no-cache, no-store, must-revalidate");
       ("Content-Type", "application/wasm")]
      (Some [Byte.x00; Byte.x61; Byte.x73; Byte.x6d]).
Proof. reflexivity. Qed.

Example demo_emit :
  Hooks.buildEnd Demo.reg Demo.bytes_fs
  = (Ret tt, [{| Hooks.a_type := "asset"; Hooks.a_fileName := "assets/demo_bg.wasm";
                 Hooks.a_source := [Byte.x00; Byte.x61; Byte.x73; Byte.x6d] |}]).
Proof. reflexivity. Qed.

(** Two crate paths with the same base name: one wasm entry, the later
    registration's. *)
Example collision_ex :
  Registry.crateNameLookup (Registry.build "/proj" ["a/demo"; "b/demo"])
    = [("demo", "demo_bg.wasm")] /\
  Registry.cratePathLookup (Registry.build "/proj" ["a/demo"; "b/demo"])
    = [("a/demo", "demo_bg.wasm"); ("b/demo", "demo_bg.wasm")] /\
  length (Registry.wasmMap (Registry.build "/proj" ["a/demo"; "b/demo"])) = 1.
Proof. split; [|split]; vm_compute; reflexivity. Qed.

Example demo_cmd :
  Build.w_execs (snd (Build.buildStart Build.vite_host Demo.dirname_ Demo.cwd ["./crates/demo"]
                        (Demo.manifest_world (Build.JObj [("name", Build.JStr "demo")]))))
  = [{| Build.ec_command :=
          "/proj/node_modules/vite-plugin-wasm-pack/node_modules/.bin/wasm-pack build --target web --out-dir /proj/node_modules/demo";
        Build.ec_cwd := None |}].
Proof. reflexivity. Qed.

Example demo_manifest :
  Build.w_fs (snd (Build.buildStart Build.vite_host Demo.dirname_ Demo.cwd ["./crates/demo"]
                     (Demo.manifest_world (Build.JObj [("name", Build.JStr "demo")]))))
     "/proj/node_modules/demo/package.json"
  = Some (Build.FJson (Build.JObj [("name", Build.JStr "demo"); ("type", Build.JStr "module")])).
Proof. reflexivity. Qed.

(* ================================================================== *)
(** * Proofs *)

(** ** Strings *)

Lemma string_append_assoc (a b c : string) : (a ++ b) ++ c = a ++ (b ++ c).
Proof. induction a as [|x a IH]; simpl; [reflexivity | now rewrite IH]. Qed.

Lemma string_length_append (a b : string) :
  String.length (a ++ b) = String.length a + String.length b.
Proof. induction a as [|x a IH]; simpl; [reflexivity | now rewrite IH]. Qed.

Lemma string_append_inj_l (a b t : string) : a ++ t = b ++ t -> a = b.
Proof.
  revert b. induction a as [|x a IH]; intros [|y b] H; simpl in H.
  - reflexivity.
  - exfalso. apply (f_equal String.length) in H. simpl in H.
    rewrite string_length_append in H. lia.
  - exfalso. apply (f_equal String.length) in H. simpl in H.
    rewrite string_length_append in H. lia.
  - injection H as -> H. now rewrite (IH b H).
Qed.

Lemma substring_all (s : string) : substring 0 (String.length s) s = s.
Proof. induction s as [|c s IH]; simpl; [reflexivity | now rewrite IH]. Qed.

Lemma substring_after (a b : string) :
  substring (String.length a) (String.length b) (a ++ b) = b.
Proof. induction a as [|c a IH]; simpl; [apply substring_all | exact IH]. Qed.

Lemma to_lower_append (a b : string) :
  Str.to_lower (a ++ b) = Str.to_lower a ++ Str.to_lower b.
Proof. induction a as [|c a IH]; simpl; [reflexivity | now rewrite IH]. Qed.

Lemma ends_with_append (a b : string) : Str.ends_with (a ++ b) b = true.
Proof.
  unfold Str.ends_with. rewrite string_length_append.
  replace (String.length a + String.length b - String.length b) with (String.length a) by lia.
  rewrite substring_after, String.eqb_refl, andb_true_r.
  apply Nat.leb_le. lia.
Qed.

(** ** JS [Map] *)

Module JsMapFacts.
Import JsMap.

Section Facts.
Context {V : Type}.

Lemma get_set (k k' : string) (v : V) (m : t V) :
  get k (set k' v m) = if String.eqb k k' then Some v else get k m.
Proof.
  induction m as [|[k0 v0] m IH]; simpl.
  - reflexivity.
  - destruct (String.eqb k' k0) eqn:E1; simpl.
    + apply String.eqb_eq in E1; subst k0.
      destruct (String.eqb k k'); reflexivity.
    + destruct (String.eqb k k0) eqn:E2.
      * apply String.eqb_eq in E2; subst k0.
        destruct (String.eqb k k') eqn:E3; [|reflexivity].
        apply String.eqb_eq in E3; subst k'. now rewrite String.eqb_refl in E1.
      * exact IH.
Qed.

Lemma keys_set (k : string) (v : V) (m : t V) (k' : string) :
  In k' (keys (set k v m)) <-> k' = k \/ In k' (keys m).
Proof.
  induction m as [|[k0 v0] m IH]; simpl.
  - split; intros H; decompose [or] H; subst; auto; contradiction.
  - destruct (String.eqb k k0) eqn:E; simpl.
    + apply String.eqb_eq in E; subst k0.
      split; intros H; decompose [or] H; subst; auto.
    + rewrite IH. split; intros H; decompose [or] H; subst; auto.
Qed.

Lemma nodup_set (k : string) (v : V) (m : t V) :
  NoDup (keys m) -> NoDup (keys (set k v m)).
Proof.
  induction m as [|[k0 v0] m IH]; simpl; intros Hnd.
  - constructor; [intros []|constructor].
  - inversion Hnd as [|? ? Hnin Hnd']; subst.
    destruct (String.eqb k k0) eqn:E; simpl.
    + apply String.eqb_eq in E; subst k0. now constructor.
    + constructor; [|now apply IH].
      intros Hin. apply keys_set in Hin.
      destruct Hin as [->|Hin]; [now rewrite String.eqb_refl in E | contradiction].
Qed.

Lemma last_binding_acc (k : string) (ops : list (string * V)) (acc : option V) :
  fold_left (fun acc kv => if String.eqb k (fst kv) then Some (snd kv) else acc) ops acc
  = match last_binding k ops with Some v => Some v | None => acc end.
Proof.
  unfold last_binding. revert acc.
  induction ops as [|[k0 v0] ops IH]; intros acc; simpl; [reflexivity|].
  destruct (String.eqb k k0); [|apply IH].
  rewrite (IH (Some v0)).
  destruct (fold_left _ ops None); reflexivity.
Qed.

Lemma last_binding_cons (k k0 : string) (v0 : V) (ops : list (string * V)) :
  last_binding k ((k0, v0) :: ops)
  = match last_binding k ops with
    | Some v => Some v
    | None => if String.eqb k k0 then Some v0 else None
    end.
Proof. unfold last_binding at 1. simpl. apply last_binding_acc. Qed.

Lemma get_fold_sets (k : string) (ops : list (string * V)) (m0 : t V) :
  get k (fold_left (fun m kv => set (fst kv) (snd kv) m) ops m0)
  = match last_binding k ops with Some v => Some v | None => get k m0 end.
Proof.
  revert m0. induction ops as [|[k0 v0] ops IH]; intros m0; simpl; [reflexivity|].
  rewrite IH, last_binding_cons, get_set.
  destruct (last_binding k ops); [reflexivity|].
  destruct (String.eqb k k0); reflexivity.
Qed.

(** A lookup after a sequence of [set]s yields the last value set. *)
Lemma get_of_sets (k : string) (ops : list (string * V)) :
  get k (of_sets ops) = last_binding k ops.
Proof.
  unfold of_sets. rewrite get_fold_sets. destruct (last_binding k ops); reflexivity.
Qed.

Lemma last_binding_some_in (k : string) (v : V) (ops : list (string * V)) :
  last_binding k ops = Some v -> In (k, v) ops.
Proof.
  induction ops as [|[k0 v0] ops IH] using rev_ind; [discriminate|].
  unfold last_binding. rewrite fold_left_app. simpl. fold (last_binding k ops).
  destruct (String.eqb k k0) eqn:E.
  - intros H; injection H as <-. apply String.eqb_eq in E; subst.
    apply in_or_app; right; now left.
  - intros H. apply in_or_app; left; auto.
Qed.

Lemma last_binding_none (k : string) (ops : list (string * V)) :
  last_binding k ops = None <-> ~ In k (map fst ops).
Proof.
  induction ops as [|[k0 v0] ops IH] using rev_ind; simpl; [tauto|].
  unfold last_binding. rewrite fold_left_app. simpl. fold (last_binding k ops).
  rewrite map_app, in_app_iff. simpl.
  destruct (String.eqb k k0) eqn:E.
  - apply String.eqb_eq in E; subst. split; [discriminate | intros H; exfalso; tauto].
  - apply String.eqb_neq in E. rewrite IH. split; intros H; [|tauto].
    intros [H1|[H1|[]]]; [tauto | congruence].
Qed.

(** When every pair with key [k] carries [v], and one exists, the last one
    does too. *)
Lemma last_binding_uniform (k : string) (v : V) (ops : list (string * V)) :
  In k (map fst ops) ->
  (forall v', In (k, v') ops -> v' = v) ->
  last_binding k ops = Some v.
Proof.
  intros Hin Huni.
  destruct (last_binding k ops) as [v'|] eqn:E.
  - f_equal. apply Huni, last_binding_some_in, E.
  - apply last_binding_none in E. contradiction.
Qed.

Lemma nodup_of_sets (ops : list (string * V)) : NoDup (keys (of_sets ops)).
Proof.
  unfold of_sets.
  assert (Gen : forall m, NoDup (keys m) ->
            NoDup (keys (fold_left (fun m kv => set (fst kv) (snd kv) m) ops m))).
  { induction ops as [|kv ops IH]; intros m Hm; simpl; [exact Hm|].
    apply IH, nodup_set, Hm. }
  apply Gen. constructor.
Qed.

End Facts.
End JsMapFacts.

(** ** The registry as three sequences of [Map.set] *)

Module RegistryFacts.
Import Registry.

Lemma build_fold (cwd : string) (paths : list string) (r0 : Registry.t) :
  fold_left (register cwd) paths r0 =
  {| wasmMap := fold_left (fun m kv => JsMap.set (fst kv) (snd kv) m)
                  (map (wasm_entry cwd) paths) (wasmMap r0);
     cratePathLookup := fold_left (fun m kv => JsMap.set (fst kv) (snd kv) m)
                  (map (path_entry cwd) paths) (cratePathLookup r0);
     crateNameLookup := fold_left (fun m kv => JsMap.set (fst kv) (snd kv) m)
                  (map (name_entry cwd) paths) (crateNameLookup r0) |}.
Proof.
  revert r0. induction paths as [|p paths IH]; intros r0; simpl.
  - destruct r0; reflexivity.
  - rewrite IH. reflexivity.
Qed.

Lemma wasmMap_build (cwd : string) (paths : list string) :
  wasmMap (build cwd paths) = JsMap.of_sets (map (wasm_entry cwd) paths).
Proof. unfold build. now rewrite build_fold. Qed.

Lemma cratePathLookup_build (cwd : string) (paths : list string) :
  cratePathLookup (build cwd paths) = JsMap.of_sets (map (path_entry cwd) paths).
Proof. unfold build. now rewrite build_fold. Qed.

Lemma crateNameLookup_build (cwd : string) (paths : list string) :
  crateNameLookup (build cwd paths) = JsMap.of_sets (map (name_entry cwd) paths).
Proof. unfold build. now rewrite build_fold. Qed.

Lemma has_of_sets {V : Type} (k : string) (ops : list (string * V)) :
  JsMap.has k (JsMap.of_sets ops) = true <-> In k (map fst ops).
Proof.
  unfold JsMap.has. rewrite JsMapFacts.get_of_sets.
  destruct (JsMap.last_binding k ops) eqn:E.
  - split; [intros _ | reflexivity].
    apply JsMapFacts.last_binding_some_in in E.
    apply (in_map fst) in E. exact E.
  - apply JsMapFacts.last_binding_none in E. split; [discriminate | contradiction].
Qed.

Lemma name_keys (cwd : string) (paths : list string) :
  map fst (map (name_entry cwd) paths) = map (_crateName cwd) paths.
Proof. rewrite map_map. reflexivity. Qed.

End RegistryFacts.

(** ** Claims about the registry *)

Module RegistryClaims.
Import Registry RegistryFacts.

(** C10: building the registry never fails, whatever the crate paths; in
    each of the three maps, the value of a key is the one given by the last
    crate path that produced that key (a later crate with the same derived
    name overwrites an earlier one). *)
Theorem registry_last_registration_wins (cwd : string) (paths : list string) (k : string) :
  JsMap.get k (wasmMap (build cwd paths))
    = JsMap.last_binding k (map (wasm_entry cwd) paths) /\
  JsMap.get k (cratePathLookup (build cwd paths))
    = JsMap.last_binding k (map (path_entry cwd) paths) /\
  JsMap.get k (crateNameLookup (build cwd paths))
    = JsMap.last_binding k (map (name_entry cwd) paths).
Proof.
  rewrite wasmMap_build, cratePathLookup_build, crateNameLookup_build.
  now rewrite !JsMapFacts.get_of_sets.
Qed.

(** C6: for every registered crate path [p], its name is the base name of
    its resolved absolute path, its wasm file is [name ++ "_bg.wasm"], and
    the maps give exactly these values and the disk path
    [path.resolve('node_modules', name, name + "_bg.wasm")], whatever the
    other crate paths and their order. *)
Theorem registry_derivation (cwd : string) (paths : list string) (p : string)
    (Hin : In p paths) :
  let name := _crateName cwd p in
  name = Path.basename (Path.resolve cwd [p]) /\
  JsMap.get p (cratePathLookup (build cwd paths)) = Some (name ++ "_bg.wasm") /\
  JsMap.get name (crateNameLookup (build cwd paths)) = Some (name ++ "_bg.wasm") /\
  JsMap.get (name ++ "_bg.wasm") (wasmMap (build cwd paths))
    = Some {| ci_path := Path.resolve cwd ["node_modules"; name; name ++ "_bg.wasm"];
              ci_name := name |}.
Proof.
  cbv zeta. split; [reflexivity|].
  rewrite wasmMap_build, cratePathLookup_build, crateNameLookup_build,
    !JsMapFacts.get_of_sets.
  split; [|split].
  - apply JsMapFacts.last_binding_uniform.
    + rewrite map_map. apply (in_map (fun q => fst (path_entry cwd q))), Hin.
    + intros v' Hv. apply in_map_iff in Hv as [q [Hq _]].
      unfold path_entry in Hq. injection Hq as -> <-. reflexivity.
  - apply JsMapFacts.last_binding_uniform.
    + rewrite name_keys. apply in_map, Hin.
    + intros v' Hv. apply in_map_iff in Hv as [q [Hq _]].
      unfold name_entry in Hq. injection Hq as Hn <-. now rewrite Hn.
  - apply JsMapFacts.last_binding_uniform.
    + rewrite map_map. apply (in_map (fun q => fst (wasm_entry cwd q))), Hin.
    + intros v' Hv. apply in_map_iff in Hv as [q [Hq _]].
      unfold wasm_entry, wasm_file in Hq. injection Hq as Hn <-.
      apply string_append_inj_l in Hn. now rewrite Hn.
Qed.

(** C5: [resolveId(id)] is the prefixed id exactly when [id] is the derived
    name of a registered crate, and [null] otherwise; it never returns
    anything else, and with no crates it is always [null]. *)
Theorem resolveId_spec (cwd : string) (paths : list string) (id : string) :
  (Hooks.resolveId (build cwd paths) id = Some (prefix ++ id) <->
     exists p, In p paths /\ _crateName cwd p = id) /\
  (Hooks.resolveId (build cwd paths) id = None <->
     ~ exists p, In p paths /\ _crateName cwd p = id) /\
  (Hooks.resolveId (build cwd paths) id = None \/
   Hooks.resolveId (build cwd paths) id = Some (prefix ++ id)) /\
  Hooks.resolveId (build cwd []) id = None.
Proof.
  assert (Hk : JsMap.has id (crateNameLookup (build cwd paths)) = true <->
               exists p, In p paths /\ _crateName cwd p = id).
  { rewrite crateNameLookup_build, has_of_sets, name_keys, in_map_iff.
    split; intros [p [H1 H2]]; eauto. }
  unfold Hooks.resolveId.
  destruct (JsMap.has id (crateNameLookup (build cwd paths))) eqn:E.
  - split; [tauto|]. split; [|split; [now right | reflexivity]].
    split; [discriminate|]. intros Hn. exfalso. apply Hn, Hk. reflexivity.
  - split; [split; [discriminate | intros Hex; apply Hk in Hex; congruence]|].
    split; [|split; [now left | reflexivity]].
    split; [intros _ Hex; apply Hk in Hex; congruence | reflexivity].
Qed.

Lemma registry_derivation_witness :
  In "./crates/demo" ["./crates/demo"; "../lib/other"] /\
  Registry._crateName "/proj" "./crates/demo" = "demo" /\
  JsMap.get "demo_bg.wasm" (wasmMap (build "/proj" ["./crates/demo"; "../lib/other"]))
    = Some {| ci_path := "/proj/node_modules/demo/demo_bg.wasm"; ci_name := "demo" |}.
Proof.
  split; [simpl; now left|]. split; [reflexivity|].
  exact (proj2 (proj2 (proj2 (registry_derivation "/proj" ["./crates/demo"; "../lib/other"]
           "./crates/demo" (or_introl eq_refl))))).
Defined.

End RegistryClaims.

(** ** Claims about [load], the dev-server middleware and [buildEnd] *)

Module HookClaims.
Import Registry RegistryFacts Hooks.

Lemma index_zero_prefix (s1 s2 : string) :
  index 0 s1 s2 = Some 0 -> String.prefix s1 s2 = true.
Proof.
  destruct s2 as [|b s2']; intros H.
  - destruct s1; [reflexivity | discriminate].
  - change (index 0 s1 (String b s2')) with
      (if String.prefix s1 (String b s2') then Some 0
       else match index 0 s1 s2' with Some n => Some (S n) | None => None end) in H.
    destruct (String.prefix s1 (String b s2')); [reflexivity|].
    destruct (index 0 s1 s2'); discriminate.
Qed.

Lemma index_of_prefix (name : string) : Str.index_of prefix (prefix ++ name) = Some 0.
Proof.
  unfold Str.index_of, prefix. simpl.
  destruct name; reflexivity.
Qed.

Lemma strip_prefix (name : string) :
  Str.replace_first_empty prefix (prefix ++ name) = name.
Proof.
  unfold Str.replace_first_empty. rewrite index_of_prefix.
  unfold prefix. simpl. rewrite Nat.sub_0_r. apply substring_all.
Qed.

(** C4: [load] of a prefixed id returns the text on disk at
    [path.join('./node_modules', name, name + '.js')] for the stripped
    [name]; [load] of an id without the prefix returns [undefined]. *)
Theorem load_spec (fs : string -> option string) (name : string) :
  (forall content, fs (glue_path name) = Some content ->
                   load fs (prefix ++ name) = Ret (Some content)) /\
  (forall id, String.prefix prefix id = false -> load fs id = Ret None).
Proof.
  split.
  - intros content Hfile. unfold load. rewrite index_of_prefix, strip_prefix.
    unfold read_text. fold (glue_path name). now rewrite Hfile.
  - intros id Hp. unfold load.
    destruct (Str.index_of prefix id) as [[|n]|] eqn:E; try reflexivity.
    apply index_zero_prefix in E. congruence.
Qed.

Lemma load_spec_witness :
  Demo.text_fs (glue_path "demo") = Some "export default init;" /\
  load Demo.text_fs (prefix ++ "demo") = Ret (Some "export default init;") /\
  load (fun _ => None) "demo" = Ret None.
Proof.
  split; [reflexivity|]. split.
  - exact (proj1 (load_spec Demo.text_fs "demo") "export default init;" eq_refl).
  - exact (proj2 (load_spec (fun _ => None) "demo") "demo" eq_refl).
Defined.

Lemma wasmMap_key_shape (cwd : string) (paths : list string) (k : string)
    (e : CrateInfoType) :
  JsMap.get k (wasmMap (build cwd paths)) = Some e ->
  exists p, In p paths /\ k = _crateName cwd p ++ "_bg.wasm".
Proof.
  rewrite wasmMap_build, JsMapFacts.get_of_sets. intros H.
  apply JsMapFacts.last_binding_some_in, in_map_iff in H as [p [Hp Hin]].
  exists p. split; [exact Hin|]. unfold wasm_entry, wasm_file in Hp.
  now injection Hp as <- _.
Qed.

Lemma wasm_file_ends_with (n : string) :
  Str.ends_with (Str.to_lower (n ++ "_bg.wasm")) ".wasm" = true.
Proof.
  rewrite to_lower_append.
  change (Str.to_lower "_bg.wasm") with ("_bg" ++ ".wasm").
  rewrite <- string_append_assoc. apply ends_with_append.
Qed.

(** C3 (amended): for a request with a string URL the middleware looks
    [path.basename(url)] up in the wasm map with exact, case-sensitive
    matching; when it is a key it answers 200 with the no-cache and
    [application/wasm] headers and the bytes on disk at the entry's path,
    otherwise it calls [next()] and writes nothing. *)
Theorem middleware_spec (cwd : string) (paths : list string)
    (fs : string -> option (list Byte.byte)) (u : string) :
  middleware (build cwd paths) fs (Some u) =
  match JsMap.get (Path.basename u) (wasmMap (build cwd paths)) with
  | Some e =>
      MwRespond 200
        [("Cache-Control", "no-cache, no-store, must-revalidate");
         ("Content-Type", "application/wasm")]
        (fs (ci_path e))
  | None => MwNext
  end.
Proof.
  unfold middleware.
  destruct (JsMap.get (Path.basename u) (wasmMap (build cwd paths))) as [e|] eqn:E;
    [|reflexivity].
  apply wasmMap_key_shape in E as [p [_ Hk]]. rewrite Hk, wasm_file_ends_with.
  reflexivity.
Qed.

(** C3: the file-name match is not case-insensitive: "/DEMO_BG.WASM"
    lower-cases to the known "demo_bg.wasm", yet the request is passed on. *)
Lemma middleware_case_counterexample :
  Str.to_lower (Path.basename "/DEMO_BG.WASM") = "demo_bg.wasm" /\
  JsMap.has "demo_bg.wasm" (wasmMap Demo.reg) = true /\
  middleware Demo.reg Demo.bytes_fs (Some "/DEMO_BG.WASM") = MwNext.
Proof. split; [|split]; vm_compute; reflexivity. Qed.

Lemma string_append_inj_r (p a b : string) : p ++ a = p ++ b -> a = b.
Proof. induction p as [|c p IH]; simpl; [auto | intros H; injection H; auto]. Qed.

Lemma nodup_map_inj {A B : Type} (f : A -> B) (l : list A) :
  (forall x y, f x = f y -> x = y) -> NoDup l -> NoDup (map f l).
Proof.
  intros Hinj Hnd. induction Hnd as [|x l Hnin Hnd IH]; simpl; constructor; auto.
  intros Hin. apply in_map_iff in Hin as [y [Hy Hin]]. apply Hinj in Hy. subst. auto.
Qed.

Lemma emit_all_ok (fs : string -> option (list Byte.byte))
    (entries : JsMap.t CrateInfoType) (emitted : list asset) :
  (forall f e, In (f, e) entries -> fs (ci_path e) <> None) ->
  exists assets,
    emit_all fs entries emitted = (Ret tt, (emitted ++ assets)%list) /\
    Forall2 (fun fe a => a_type a = "asset" /\ a_fileName a = "assets/" ++ fst fe /\
                         fs (ci_path (snd fe)) = Some (a_source a)) entries assets.
Proof.
  revert emitted. induction entries as [|[f e] entries IH]; intros emitted Hfs; cbn [emit_all].
  - exists []. rewrite app_nil_r. split; [reflexivity | constructor].
  - destruct (fs (ci_path e)) as [bytes|] eqn:E.
    2:{ exfalso. apply (Hfs f e); [now left | exact E]. }
    destruct (IH (app emitted [{| a_type := "asset"; a_fileName := "assets/" ++ f;
                                 a_source := bytes |}])) as [assets [H1 H2]].
    { intros f' e' Hin. apply (Hfs f' e'). now right. }
    exists ({| a_type := "asset"; a_fileName := "assets/" ++ f; a_source := bytes |} :: assets).
    split.
    + rewrite H1, <- app_assoc. reflexivity.
    + constructor; [|exact H2]. simpl. auto.
Qed.

Lemma forall2_filenames (fs : string -> option (list Byte.byte))
    (entries : JsMap.t CrateInfoType) (assets : list asset) :
  Forall2 (fun fe a => a_type a = "asset" /\ a_fileName a = "assets/" ++ fst fe /\
                       fs (ci_path (snd fe)) = Some (a_source a)) entries assets ->
  map a_fileName assets = map (fun f => "assets/" ++ f) (JsMap.keys entries).
Proof.
  induction 1 as [|fe a entries assets [_ [Hn _]] _ IH]; simpl; [reflexivity|].
  now rewrite Hn, IH.
Qed.

(** C8: when every artifact of the wasm map is on disk, [buildEnd]
    completes and emits, in map order, one asset per entry: of type
    "asset", at "assets/<file name>", whose source is the bytes on disk at
    the entry's path; no two emitted assets share a file name. *)
Theorem buildEnd_emits_each_artifact (cwd : string) (paths : list string)
    (fs : string -> option (list Byte.byte))
    (Hfiles : forall f e, In (f, e) (wasmMap (build cwd paths)) -> fs (ci_path e) <> None) :
  fst (buildEnd (build cwd paths) fs) = Ret tt /\
  Forall2 (fun fe a => a_type a = "asset" /\ a_fileName a = "assets/" ++ fst fe /\
                       fs (ci_path (snd fe)) = Some (a_source a))
    (wasmMap (build cwd paths)) (snd (buildEnd (build cwd paths) fs)) /\
  NoDup (map a_fileName (snd (buildEnd (build cwd paths) fs))).
Proof.
  unfold buildEnd.
  destruct (emit_all_ok fs (wasmMap (build cwd paths)) [] Hfiles) as [assets [H1 H2]].
  rewrite H1. simpl. split; [reflexivity|]. split; [exact H2|].
  rewrite (forall2_filenames fs _ _ H2).
  apply nodup_map_inj; [apply string_append_inj_r|].
  rewrite wasmMap_build. apply JsMapFacts.nodup_of_sets.
Qed.

Lemma buildEnd_emits_each_artifact_witness :
  (forall f e, In (f, e) (wasmMap Demo.reg) -> Demo.bytes_fs (ci_path e) <> None) /\
  fst (buildEnd Demo.reg Demo.bytes_fs) = Ret tt.
Proof.
  assert (H : forall f e, In (f, e) (wasmMap Demo.reg) -> Demo.bytes_fs (ci_path e) <> None).
  { intros f e Hin. vm_compute in Hin. destruct Hin as [Hfe|[]].
    injection Hfe as _ <-. vm_compute. discriminate. }
  split; [exact H|].
  exact (proj1 (buildEnd_emits_each_artifact Demo.cwd ["./crates/demo"] Demo.bytes_fs H)).
Defined.

End HookClaims.

(** ** Claims about [_runWasmPackBuild] and [buildStart] *)

Module BuildClaims.
Import Registry Build.

(** C9: [_runWasmPackBuild] runs the child process exactly once, with
    [outDir] defaulting to "pkg"; it rejects with
    "wasm-pack execution error: <error>" when the process reports an error
    and resolves with its stderr otherwise, and logs nothing. *)
Theorem runWasmPackBuild_spec (dirname_ cratePath : string) (outDir : option string)
    (w : world) :
  w_execs (snd (_runWasmPackBuild dirname_ cratePath outDir w))
    = (w_execs w ++ [compile_call dirname_ outDir])%list /\
  fst (_runWasmPackBuild dirname_ cratePath outDir w)
    = match w_exec w (compile_call dirname_ outDir) with
      | ExecError error => Exc ("wasm-pack execution error: " ++ error)
      | ExecDone _ stderr _ => Ret stderr
      end /\
  w_log (snd (_runWasmPackBuild dirname_ cratePath outDir w)) = w_log w.
Proof.
  unfold _runWasmPackBuild, bind, exec. fold (compile_call dirname_ outDir).
  destruct (w_exec w (compile_call dirname_ outDir)); simpl; auto.
Qed.

(** C2: the crate path given to [_runWasmPackBuild] is used nowhere: the
    call is the same for every crate path, has no [cwd] option, and so the
    build runs in the Vite process's directory ("/proj" here) rather than in
    "./crates/demo". *)
Theorem runWasmPackBuild_ignores_cratePath :
  (forall dirname_ c1 c2 outDir w,
     _runWasmPackBuild dirname_ c1 outDir w = _runWasmPackBuild dirname_ c2 outDir w) /\
  w_execs (snd (_runWasmPackBuild Demo.dirname_ "./crates/demo"
                  (Some "/proj/node_modules/demo") Demo.failing_world))
  = [{| ec_command :=
          "/proj/node_modules/vite-plugin-wasm-pack/node_modules/.bin/wasm-pack build --target web --out-dir /proj/node_modules/demo";
        ec_cwd := None |}].
Proof. split; [reflexivity | vm_compute; reflexivity]. Qed.

Lemma bind_ret_inv {A B} (m : M A) (k : A -> M B) (w w' : world) (b : B) :
  bind m k w = (Ret b, w') -> exists a w1, m w = (Ret a, w1) /\ k a w1 = (Ret b, w').
Proof.
  unfold bind. destruct (m w) as [[a|e] w1]; [eauto | discriminate].
Qed.

Lemma bind_exc_inv {A B} (m : M A) (k : A -> M B) (w w' : world) (e : string) :
  bind m k w = (Exc e, w') ->
  m w = (Exc e, w') \/ exists a w1, m w = (Ret a, w1) /\ k a w1 = (Exc e, w').
Proof.
  unfold bind. destruct (m w) as [[a|e'] w1]; [eauto | intros H; injection H as -> ->; auto].
Qed.

Lemma run_step (dirname_ cratePath : string) (outDir : option string) (w : world) :
  _runWasmPackBuild dirname_ cratePath outDir w
  = (match w_exec w (compile_call dirname_ outDir) with
     | ExecError error => Exc ("wasm-pack execution error: " ++ error)
     | ExecDone _ stderr _ => Ret stderr
     end,
     {| w_fs := match w_exec w (compile_call dirname_ outDir) with
                | ExecDone _ _ ws => apply_writes ws (w_fs w)
                | ExecError _ => w_fs w
                end;
        w_exec := w_exec w; w_log := w_log w;
        w_execs := (w_execs w ++ [compile_call dirname_ outDir])%list |}).
Proof.
  unfold _runWasmPackBuild, bind, exec. fold (compile_call dirname_ outDir).
  destruct (w_exec w (compile_call dirname_ outDir)); reflexivity.
Qed.

(** C7: when the [try] block of [prepareBuild] completes for a package
    whose compile leaves its manifest as a JSON object (the form wasm-pack
    generates [package.json] in), the manifest at
    [<node_modules>/<name>/package.json] is afterwards the object that was
    read with its "type" field set to "module" (replaced in place or
    appended): "type" reads "module" and every other field keeps its
    value. *)
Theorem manifest_after_success (dirname_ cwd cratePath : string) (w w' : world)
    (Hobj : forall out err ws j,
       w_exec w (compile_call dirname_ (Some (local_path cwd (_crateName cwd cratePath))))
         = ExecDone out err ws ->
       apply_writes ws (w_fs w) (pkg_json_path cwd (_crateName cwd cratePath))
         = Some (FJson j) ->
       exists fields, j = JObj fields)
    (Hok : prepare_try dirname_ cwd cratePath w = (Ret tt, w')) :
  exists out err ws fields,
    w_exec w (compile_call dirname_ (Some (local_path cwd (_crateName cwd cratePath))))
      = ExecDone out err ws /\
    apply_writes ws (w_fs w) (pkg_json_path cwd (_crateName cwd cratePath))
      = Some (FJson (JObj fields)) /\
    w_fs w' (pkg_json_path cwd (_crateName cwd cratePath))
      = Some (FJson (JObj (JsMap.set "type" (JStr "module") fields))) /\
    JsMap.get "type" (JsMap.set "type" (JStr "module") fields) = Some (JStr "module") /\
    (forall k, k <> "type" ->
       JsMap.get k (JsMap.set "type" (JStr "module") fields) = JsMap.get k fields).
Proof.
  revert Hok. unfold prepare_try. cbv zeta. unfold bind at 1. rewrite run_step.
  destruct (w_exec w (compile_call dirname_ (Some (local_path cwd (_crateName cwd cratePath)))))
    as [error|out err ws] eqn:Hexec; intros H; [discriminate H|].
  unfold bind, this_warn, log, readJson, lift, writeJson in H.
  cbn [w_fs w_exec w_log w_execs] in H.
  fold (pkg_json_path cwd (_crateName cwd cratePath)) in H.
  destruct (apply_writes ws (w_fs w) (pkg_json_path cwd (_crateName cwd cratePath)))
    as [[j|t]|] eqn:Hm; [|discriminate H|discriminate H].
  destruct (Hobj out err ws j eq_refl Hm) as [fields ->].
  simpl in H. injection H as <-.
  exists out, err, ws, fields. split; [reflexivity|]. split; [exact Hm|]. split.
  - simpl. unfold write_file. now rewrite String.eqb_refl.
  - split.
    + rewrite JsMapFacts.get_set. reflexivity.
    + intros k Hk. rewrite JsMapFacts.get_set. apply String.eqb_neq in Hk. now rewrite Hk.
Qed.

Lemma manifest_after_success_witness :
  (forall out err ws j,
     w_exec (Demo.manifest_world (JObj [("name", JStr "demo"); ("type", JStr "commonjs")]))
       (compile_call Demo.dirname_
          (Some (local_path Demo.cwd (_crateName Demo.cwd "./crates/demo"))))
       = ExecDone out err ws ->
     apply_writes ws
       (w_fs (Demo.manifest_world (JObj [("name", JStr "demo"); ("type", JStr "commonjs")])))
       (pkg_json_path Demo.cwd (_crateName Demo.cwd "./crates/demo")) = Some (FJson j) ->
     exists fields, j = JObj fields) /\
  prepare_try Demo.dirname_ Demo.cwd "./crates/demo"
    (Demo.manifest_world (JObj [("name", JStr "demo"); ("type", JStr "commonjs")]))
  = (Ret tt, snd (prepare_try Demo.dirname_ Demo.cwd "./crates/demo"
                    (Demo.manifest_world (JObj [("name", JStr "demo"); ("type", JStr "commonjs")])))) /\
  exists out err ws fields,
    w_exec (Demo.manifest_world (JObj [("name", JStr "demo"); ("type", JStr "commonjs")]))
      (compile_call Demo.dirname_
         (Some (local_path Demo.cwd (_crateName Demo.cwd "./crates/demo"))))
      = ExecDone out err ws /\
    apply_writes ws
      (w_fs (Demo.manifest_world (JObj [("name", JStr "demo"); ("type", JStr "commonjs")])))
      (pkg_json_path Demo.cwd (_crateName Demo.cwd "./crates/demo"))
      = Some (FJson (JObj fields)) /\
    w_fs (snd (prepare_try Demo.dirname_ Demo.cwd "./crates/demo"
                 (Demo.manifest_world (JObj [("name", JStr "demo"); ("type", JStr "commonjs")]))))
      (pkg_json_path Demo.cwd (_crateName Demo.cwd "./crates/demo"))
      = Some (FJson (JObj (JsMap.set "type" (JStr "module") fields))) /\
    JsMap.get "type" (JsMap.set "type" (JStr "module") fields) = Some (JStr "module") /\
    (forall k, k <> "type" ->
       JsMap.get k (JsMap.set "type" (JStr "module") fields) = JsMap.get k fields).
Proof.
  assert (Hobj : forall out err ws j,
     w_exec (Demo.manifest_world (JObj [("name", JStr "demo"); ("type", JStr "commonjs")]))
       (compile_call Demo.dirname_
          (Some (local_path Demo.cwd (_crateName Demo.cwd "./crates/demo"))))
       = ExecDone out err ws ->
     apply_writes ws
       (w_fs (Demo.manifest_world (JObj [("name", JStr "demo"); ("type", JStr "commonjs")])))
       (pkg_json_path Demo.cwd (_crateName Demo.cwd "./crates/demo")) = Some (FJson j) ->
     exists fields, j = JObj fields).
  { intros out err ws j H1 H2. simpl in H1. injection H1 as <- <- <-.
    vm_compute in H2. injection H2 as <-. eexists; reflexivity. }
  assert (Hok : prepare_try Demo.dirname_ Demo.cwd "./crates/demo"
                  (Demo.manifest_world (JObj [("name", JStr "demo"); ("type", JStr "commonjs")]))
                = (Ret tt, snd (prepare_try Demo.dirname_ Demo.cwd "./crates/demo"
                     (Demo.manifest_world (JObj [("name", JStr "demo"); ("type", JStr "commonjs")]))))).
  { vm_compute. reflexivity. }
  split; [exact Hobj|]. split; [exact Hok|].
  exact (manifest_after_success _ _ _ _ _ Hobj Hok).
Defined.

Lemma run_fs (dirname_ cratePath : string) (outDir : option string) (w w1 : world)
    (r : outcome string) :
  _runWasmPackBuild dirname_ cratePath outDir w = (r, w1) ->
  w_fs w1 = match w_exec w (compile_call dirname_ outDir) with
            | ExecDone _ _ ws => apply_writes ws (w_fs w)
            | ExecError _ => w_fs w
            end.
Proof.
  unfold _runWasmPackBuild, bind, exec. fold (compile_call dirname_ outDir).
  destruct (w_exec w (compile_call dirname_ outDir)); intros H; injection H as _ <-;
    reflexivity.
Qed.

(** A failure in the [try] block leaves the files as the compiler left
    them: the plugin itself writes nothing. *)
Lemma prepare_try_exc_fs (dirname_ cwd cratePath : string) (w w1 : world) (e : string) :
  prepare_try dirname_ cwd cratePath w = (Exc e, w1) ->
  w_fs w1 = match w_exec w (compile_call dirname_
                              (Some (local_path cwd (_crateName cwd cratePath)))) with
            | ExecDone _ _ ws => apply_writes ws (w_fs w)
            | ExecError _ => w_fs w
            end.
Proof.
  unfold prepare_try. intros H.
  apply bind_exc_inv in H as [H | [out [w2 [Hrun H]]]].
  - apply run_fs in H. exact H.
  - apply run_fs in Hrun. rewrite <- Hrun.
    unfold bind at 1, this_warn, log in H.
    unfold bind at 1, readJson in H. cbn [w_fs] in H.
    match type of H with
    | context [match ?x with Some _ => _ | None => _ end] => destruct x as [[j|t]|]
    end.
    + unfold bind, lift in H. destruct (set_type_module (of_json j)).
      * unfold writeJson in H. discriminate.
      * injection H as _ <-. reflexivity.
    + injection H as _ <-. reflexivity.
    + injection H as _ <-. reflexivity.
Qed.

Lemma prepareBuild_try_exc (h : host) (dirname_ cwd cratePath : string) (w w1 : world)
    (e : string) :
  prepare_try dirname_ cwd cratePath w = (Exc e, w1) ->
  prepareBuild h dirname_ cwd cratePath w =
    ((if error_throws h then Exc (error_message (_crateName cwd cratePath) e) else Ret tt),
     {| w_fs := w_fs w1; w_exec := w_exec w1;
        w_log := (w_log w1 ++ [Error (error_message (_crateName cwd cratePath) e)])%list;
        w_execs := w_execs w1 |}).
Proof.
  intros H. unfold prepareBuild, catch. rewrite H.
  unfold this_error, bind, log. simpl. destruct (error_throws h); reflexivity.
Qed.

Lemma prepareBuild_never_throws (dirname_ cwd cratePath : string) (w : world) :
  exists w', prepareBuild {| error_throws := false |} dirname_ cwd cratePath w = (Ret tt, w') /\
             length (w_execs w') = S (length (w_execs w)).
Proof.
  destruct (prepare_try dirname_ cwd cratePath w) as [[u|e] w1] eqn:E.
  - exists w1. unfold prepareBuild, catch. rewrite E. destruct u. split; [reflexivity|].
    unfold prepare_try in E.
    apply bind_ret_inv in E as [out [w2 [Hrun H]]].
    assert (Hx : length (w_execs w2) = S (length (w_execs w))).
    { unfold _runWasmPackBuild, bind, exec in Hrun.
      destruct (w_exec w _); injection Hrun as _ <-; simpl;
        rewrite length_app; simpl; lia. }
    rewrite <- Hx.
    apply bind_ret_inv in H as [u [w3 [Hw H]]].
    unfold this_warn, log in Hw. injection Hw as _ <-.
    apply bind_ret_inv in H as [v [w4 [Hr H]]].
    unfold readJson in Hr. cbn [w_fs] in Hr.
    destruct (w_fs w2 _) as [[j|t]|]; [|discriminate|discriminate].
    injection Hr as _ <-.
    apply bind_ret_inv in H as [v' [w5 [Hl H]]].
    unfold lift in Hl. injection Hl as _ <-.
    unfold writeJson in H. injection H as <-. reflexivity.
  - eexists. rewrite (prepareBuild_try_exc _ _ _ _ _ _ _ E). split; [reflexivity|].
    simpl. unfold prepare_try in E.
    apply bind_exc_inv in E as [Hrun | [out [w2 [Hrun H]]]].
    + unfold _runWasmPackBuild, bind, exec in Hrun.
      destruct (w_exec w _); injection Hrun as _ <-; simpl;
        rewrite length_app; simpl; lia.
    + assert (Hx : length (w_execs w2) = S (length (w_execs w))).
      { unfold _runWasmPackBuild, bind, exec in Hrun.
        destruct (w_exec w _); injection Hrun as _ <-; simpl;
          rewrite length_app; simpl; lia. }
      rewrite <- Hx.
      unfold bind at 1, this_warn, log in H.
      unfold bind at 1, readJson in H. cbn [w_fs w_execs] in H.
      match type of H with
      | context [match ?x with Some _ => _ | None => _ end] => destruct x as [[j|t]|]
      end.
      * unfold bind, lift in H. destruct (set_type_module (of_json j)).
        -- unfold writeJson in H. discriminate.
        -- injection H as _ <-. reflexivity.
      * injection H as _ <-. reflexivity.
      * injection H as _ <-. reflexivity.
Qed.

(** C1 (amended): a failure of the compile or of the manifest patch of a
    crate is reported through [this.error] with a message naming the
    crate and carrying the cause, and the plugin writes no file for it.
    What happens next is decided by the host: when [this.error] returns,
    [buildStart] goes on with every remaining crate and completes; when it
    throws, as Vite's does, [buildStart] rejects at that crate and compiles
    none of the remaining ones. *)
Theorem buildStart_failure_policy :
  (forall h dirname_ cwd cratePath w e w1,
     prepare_try dirname_ cwd cratePath w = (Exc e, w1) ->
     prepareBuild h dirname_ cwd cratePath w =
       ((if error_throws h then Exc (error_message (_crateName cwd cratePath) e) else Ret tt),
        {| w_fs := w_fs w1; w_exec := w_exec w1;
           w_log := (w_log w1 ++ [Error (error_message (_crateName cwd cratePath) e)])%list;
           w_execs := w_execs w1 |}) /\
     w_fs w1 = match w_exec w (compile_call dirname_
                                 (Some (local_path cwd (_crateName cwd cratePath)))) with
               | ExecDone _ _ ws => apply_writes ws (w_fs w)
               | ExecError _ => w_fs w
               end) /\
  (forall dirname_ cwd paths w,
     fst (buildStart {| error_throws := false |} dirname_ cwd paths w) = Ret tt /\
     length (w_execs (snd (buildStart {| error_throws := false |} dirname_ cwd paths w)))
       = length (w_execs w) + length paths) /\
  (forall dirname_ cwd cratePath rest w e w1,
     prepare_try dirname_ cwd cratePath w = (Exc e, w1) ->
     buildStart vite_host dirname_ cwd (cratePath :: rest) w =
       (Exc (error_message (_crateName cwd cratePath) e),
        {| w_fs := w_fs w1; w_exec := w_exec w1;
           w_log := (w_log w1 ++ [Error (error_message (_crateName cwd cratePath) e)])%list;
           w_execs := w_execs w1 |})).
Proof.
  split; [|split].
  - intros h dirname_ cwd cratePath w e w1 H. split.
    + exact (prepareBuild_try_exc h _ _ _ _ _ _ H).
    + exact (prepare_try_exc_fs _ _ _ _ _ _ H).
  - intros dirname_ cwd paths. induction paths as [|p rest IH]; intros w.
    + simpl. split; [reflexivity | lia].
    + destruct (prepareBuild_never_throws dirname_ cwd p w) as [w' [Hp Hl]].
      assert (Hstep : buildStart {| error_throws := false |} dirname_ cwd (p :: rest) w
                      = buildStart {| error_throws := false |} dirname_ cwd rest w').
      { simpl. unfold bind at 1. rewrite Hp. reflexivity. }
      rewrite Hstep. destruct (IH w') as [IH1 IH2]. split; [exact IH1|].
      rewrite IH2, Hl. simpl. lia.
  - intros dirname_ cwd cratePath rest w e w1 H.
    simpl. unfold bind at 1. rewrite (prepareBuild_try_exc vite_host _ _ _ _ _ _ H).
    reflexivity.
Qed.

(** C1: with Vite's [this.error], a failing first crate stops the pass:
    [buildStart] rejects and the second crate is never compiled. *)
Lemma buildStart_abort_counterexample :
  fst (buildStart vite_host Demo.dirname_ Demo.cwd ["./crates/a"; "./crates/b"]
         Demo.failing_world)
    = Exc (error_message "a" "wasm-pack execution error: Error: Command failed") /\
  length (w_execs (snd (buildStart vite_host Demo.dirname_ Demo.cwd
                          ["./crates/a"; "./crates/b"] Demo.failing_world))) = 1.
Proof. split; vm_compute; reflexivity. Qed.

End BuildClaims.

(* ================================================================== *)
(** * Further properties of the plugin *)

(** ** The registry: key order *)

Module RegistryOrder.
Import Registry RegistryFacts.

Lemma keys_set_shape {V : Type} (k : string) (v : V) (m : JsMap.t V) :
  JsMap.keys (JsMap.set k v m)
  = if existsb (String.eqb k) (JsMap.keys m) then JsMap.keys m
    else (JsMap.keys m ++ [k])%list.
Proof.
  induction m as [|[k0 v0] m IH]; simpl; [reflexivity|].
  destruct (String.eqb k k0) eqn:E; simpl.
  - apply String.eqb_eq in E; subst. reflexivity.
  - rewrite IH. destruct (existsb (String.eqb k) (JsMap.keys m)); reflexivity.
Qed.

Lemma keys_fold_sets {V : Type} (ops : list (string * V)) (m0 : JsMap.t V) :
  JsMap.keys (fold_left (fun m kv => JsMap.set (fst kv) (snd kv) m) ops m0)
  = fold_left (fun acc k => if existsb (String.eqb k) acc then acc else (acc ++ [k])%list)
      (map fst ops) (JsMap.keys m0).
Proof.
  revert m0. induction ops as [|[k v] ops IH]; intros m0; simpl; [reflexivity|].
  rewrite IH, keys_set_shape. reflexivity.
Qed.

Lemma keys_of_sets {V : Type} (ops : list (string * V)) :
  JsMap.keys (JsMap.of_sets ops) = JsMap.first_occurrences (map fst ops).
Proof. unfold JsMap.of_sets. apply keys_fold_sets. Qed.

(** The three maps list their keys in the order in which the crate paths
    first produced them: a later crate with an already-seen key updates the
    value but keeps the key's position.  This is the order in which
    [buildEnd] emits the assets. *)
Theorem registry_key_order (cwd : string) (paths : list string) :
  JsMap.keys (wasmMap (build cwd paths))
    = JsMap.first_occurrences (map (fun p => wasm_file (_crateName cwd p)) paths) /\
  JsMap.keys (cratePathLookup (build cwd paths)) = JsMap.first_occurrences paths /\
  JsMap.keys (crateNameLookup (build cwd paths))
    = JsMap.first_occurrences (map (_crateName cwd) paths).
Proof.
  rewrite wasmMap_build, cratePathLookup_build, crateNameLookup_build, !keys_of_sets,
    !map_map.
  split; [reflexivity | split; [|reflexivity]].
  now rewrite map_id.
Qed.

End RegistryOrder.

(** ** Base names *)

Module BasenameFacts.
Import Str.

Lemma string_append_nil_r (s : string) : (s ++ "")%string = s.
Proof. induction s as [|c s IH]; simpl; [reflexivity | now rewrite IH]. Qed.

Lemma has_slash_append (a b : string) : has_slash (a ++ b) = has_slash a || has_slash b.
Proof. induction a as [|c a IH]; simpl; [reflexivity | now rewrite IH, orb_assoc]. Qed.

Lemma split_no_slash (b cur : string) :
  has_slash b = false -> split_slash_aux b cur = [(cur ++ b)%string].
Proof.
  revert cur. induction b as [|c b IH]; intros cur H; simpl.
  - now rewrite string_append_nil_r.
  - simpl in H. apply orb_false_iff in H as [Hc Hb]. rewrite Hc, (IH _ Hb).
    now rewrite string_append_assoc.
Qed.

Lemma split_snoc (s b cur : string) :
  has_slash b = false ->
  exists l, split_slash_aux (s ++ String slash b) cur = (l ++ [b])%list.
Proof.
  revert cur. induction s as [|c s IH]; intros cur Hb; simpl.
  - exists [cur]. rewrite (split_no_slash b "" Hb). reflexivity.
  - destruct (Ascii.eqb c slash).
    + destruct (IH "" Hb) as [l Hl]. exists (cur :: l). now rewrite Hl.
    + apply IH, Hb.
Qed.

(** [path.basename] of a string ending in "/<b>" is [b] when [b] is a
    non-empty name without a slash. *)
Lemma basename_snoc (s b : string) :
  has_slash b = false -> b <> "" -> Path.basename (s ++ "/" ++ b) = b.
Proof.
  intros Hs Hne. unfold Path.basename, split_slash.
  destruct (split_snoc s b "" Hs) as [l Hl].
  change ("/" ++ b)%string with (String slash b). rewrite Hl, filter_app. simpl.
  destruct (String.eqb b "") eqn:E; [apply String.eqb_eq in E; contradiction|].
  simpl. apply last_last.
Qed.

Lemma split_pieces_no_slash (s cur : string) :
  has_slash cur = false -> Forall (fun x => has_slash x = false) (split_slash_aux s cur).
Proof.
  revert cur. induction s as [|c s IH]; intros cur Hc; simpl.
  - now constructor.
  - destruct (Ascii.eqb c slash) eqn:E.
    + constructor; [exact Hc | now apply IH].
    + apply IH. rewrite has_slash_append, Hc. simpl. now rewrite E.
Qed.

Lemma last_forall {A : Type} (P : A -> Prop) (l : list A) (d : A) :
  Forall P l -> P d -> P (last l d).
Proof.
  intros Hl Hd. induction Hl as [|x l Hx Hl IH]; [exact Hd|].
  destruct l; [exact Hx | exact IH].
Qed.

Lemma basename_no_slash (p : string) : has_slash (Path.basename p) = false.
Proof.
  unfold Path.basename. apply last_forall; [|reflexivity].
  apply Forall_forall. intros x Hx. apply filter_In in Hx as [Hx _].
  revert x Hx. apply Forall_forall, split_pieces_no_slash. reflexivity.
Qed.

End BasenameFacts.

(** ** Hooks: serving, loading and emitting *)

Module HookExtras.
Import Registry RegistryFacts Hooks BasenameFacts.

Lemma wasm_entry_lookup (cwd : string) (paths : list string) (p : string) :
  In p paths ->
  JsMap.get (_crateName cwd p ++ "_bg.wasm") (wasmMap (build cwd paths))
  = Some {| ci_path := Path.resolve cwd ["node_modules"; _crateName cwd p;
                                         _crateName cwd p ++ "_bg.wasm"];
            ci_name := _crateName cwd p |}.
Proof.
  intros Hin. rewrite wasmMap_build, JsMapFacts.get_of_sets.
  apply JsMapFacts.last_binding_uniform.
  - rewrite map_map. apply (in_map (fun q => fst (wasm_entry cwd q))), Hin.
  - intros v' Hv. apply in_map_iff in Hv as [q [Hq _]].
    unfold wasm_entry, wasm_file in Hq. injection Hq as Hn <-.
    apply string_append_inj_l in Hn. now rewrite Hn.
Qed.

(** The dev server serves a registered crate's wasm file for every URL
    ending in "/<name>_bg.wasm", whatever directories come before it, with
    the bytes at [node_modules/<name>/<name>_bg.wasm]. *)
Theorem middleware_serves_registered (cwd : string) (paths : list string) (p dir : string)
    (fs : string -> option (list Byte.byte)) (Hin : In p paths) :
  middleware (build cwd paths) fs (Some (dir ++ "/" ++ _crateName cwd p ++ "_bg.wasm"))
  = MwRespond 200
      [("Cache-Control", "no-cache, no-store, must-revalidate");
       ("Content-Type", "application/wasm")]
      (fs (Path.resolve cwd ["node_modules"; _crateName cwd p;
                             _crateName cwd p ++ "_bg.wasm"])).
Proof.
  unfold middleware.
  rewrite basename_snoc.
  - rewrite (wasm_entry_lookup cwd paths p Hin). simpl.
    now rewrite HookClaims.wasm_file_ends_with.
  - rewrite has_slash_append. unfold _crateName. rewrite basename_no_slash. reflexivity.
  - destruct (_crateName cwd p); discriminate.
Qed.

Lemma middleware_serves_registered_witness :
  In "./crates/demo" ["./crates/demo"] /\
  middleware Demo.reg Demo.bytes_fs (Some ("/pkg/sub" ++ "/" ++ "demo" ++ "_bg.wasm"))
  = MwRespond 200
      [("Cache-Control", "no-cache, no-store, must-revalidate");
       ("Content-Type", "application/wasm")]
      (Some [Byte.x00; Byte.x61; Byte.x73; Byte.x6d]).
Proof.
  split; [now left|].
  exact (middleware_serves_registered Demo.cwd ["./crates/demo"] "./crates/demo" "/pkg/sub"
           Demo.bytes_fs (or_introl eq_refl)).
Defined.

(** [load] of a prefixed id reads [path.join('./node_modules', name,
    name + '.js')] for the id with the prefix removed once: the text when
    the file exists, otherwise the promise rejects with the ENOENT error
    naming that path (it is not caught). *)
Theorem load_prefixed (fs : string -> option string) (name : string) :
  load fs (prefix ++ name)
  = match fs (glue_path name) with
    | Some code => Ret (Some code)
    | None => Exc ("Error: ENOENT: no such file or directory, open '" ++ glue_path name ++ "'")
    end.
Proof.
  unfold load. rewrite HookClaims.index_of_prefix, HookClaims.strip_prefix.
  unfold read_text. fold (glue_path name). destruct (fs (glue_path name)); reflexivity.
Qed.

(** [resolveId] and [load] compose: for a registered crate, the id
    [resolveId] returns for its name is loaded from that crate's glue file. *)
Theorem resolveId_then_load (cwd : string) (paths : list string) (p : string)
    (fs : string -> option string) (Hin : In p paths) :
  exists id',
    resolveId (build cwd paths) (_crateName cwd p) = Some id' /\
    load fs id' = match fs (glue_path (_crateName cwd p)) with
                  | Some code => Ret (Some code)
                  | None => Exc ("Error: ENOENT: no such file or directory, open '"
                                 ++ glue_path (_crateName cwd p) ++ "'")
                  end.
Proof.
  exists (prefix ++ _crateName cwd p). split.
  - unfold resolveId.
    assert (H : JsMap.has (_crateName cwd p) (crateNameLookup (build cwd paths)) = true).
    { rewrite crateNameLookup_build, has_of_sets, name_keys. apply in_map, Hin. }
    now rewrite H.
  - unfold load. rewrite HookClaims.index_of_prefix, HookClaims.strip_prefix.
    unfold read_text. fold (glue_path (_crateName cwd p)).
    destruct (fs (glue_path (_crateName cwd p))); reflexivity.
Qed.

Lemma resolveId_then_load_witness :
  In "./crates/demo" ["./crates/demo"] /\
  exists id',
    resolveId (build Demo.cwd ["./crates/demo"]) (_crateName Demo.cwd "./crates/demo") = Some id' /\
    load Demo.text_fs id' = match Demo.text_fs (glue_path (_crateName Demo.cwd "./crates/demo")) with
                  | Some code => Ret (Some code)
                  | None => Exc ("Error: ENOENT: no such file or directory, open '"
                                 ++ glue_path (_crateName Demo.cwd "./crates/demo") ++ "'")
                  end.
Proof.
  split; [now left|].
  exact (resolveId_then_load Demo.cwd ["./crates/demo"] "./crates/demo" Demo.text_fs
           (or_introl eq_refl)).
Defined.

Lemma emit_all_app (fs : string -> option (list Byte.byte))
    (l1 l2 : JsMap.t CrateInfoType) (emitted : list asset) :
  emit_all fs (l1 ++ l2)%list emitted
  = match emit_all fs l1 emitted with
    | (Ret _, em) => emit_all fs l2 em
    | r => r
    end.
Proof.
  revert emitted. induction l1 as [|[f e] l1 IH]; intros emitted; cbn [emit_all app].
  - reflexivity.
  - destruct (fs (ci_path e)); [apply IH | reflexivity].
Qed.

(** [buildEnd] stops at the first wasm-map entry whose file is missing:
    the entries before it have been emitted, the error names the missing
    path, and no later entry is emitted. *)
Theorem buildEnd_stops_at_missing (cwd : string) (paths : list string)
    (fs : string -> option (list Byte.byte)) (pre post : JsMap.t CrateInfoType)
    (f : string) (e : CrateInfoType)
    (Hsplit : wasmMap (build cwd paths) = (pre ++ (f, e) :: post)%list)
    (Hpre : forall f' e', In (f', e') pre -> fs (ci_path e') <> None)
    (Hmiss : fs (ci_path e) = None) :
  fst (buildEnd (build cwd paths) fs)
    = Exc ("Error: ENOENT: no such file or directory, open '" ++ ci_path e ++ "'") /\
  Forall2 (fun fe a => a_type a = "asset" /\ a_fileName a = "assets/" ++ fst fe /\
                       fs (ci_path (snd fe)) = Some (a_source a))
    pre (snd (buildEnd (build cwd paths) fs)).
Proof.
  unfold buildEnd. rewrite Hsplit, emit_all_app.
  destruct (HookClaims.emit_all_ok fs pre [] Hpre) as [assets [H1 H2]].
  rewrite H1. cbn [emit_all app]. rewrite Hmiss. simpl. split; [reflexivity | exact H2].
Qed.

Lemma buildEnd_stops_at_missing_witness :
  fst (buildEnd (build Demo.cwd Demo.three_crates) Demo.gap_fs)
    = Exc "Error: ENOENT: no such file or directory, open '/proj/node_modules/beta/beta_bg.wasm'" /\
  Forall2 (fun fe a => a_type a = "asset" /\ a_fileName a = "assets/" ++ fst fe /\
                       Demo.gap_fs (ci_path (snd fe)) = Some (a_source a))
    [("alpha_bg.wasm",
      {| ci_path := "/proj/node_modules/alpha/alpha_bg.wasm"; ci_name := "alpha" |})]
    (snd (buildEnd (build Demo.cwd Demo.three_crates) Demo.gap_fs)).
Proof.
  refine (buildEnd_stops_at_missing Demo.cwd Demo.three_crates Demo.gap_fs
            [("alpha_bg.wasm",
              {| ci_path := "/proj/node_modules/alpha/alpha_bg.wasm"; ci_name := "alpha" |})]
            [("gamma_bg.wasm",
              {| ci_path := "/proj/node_modules/gamma/gamma_bg.wasm"; ci_name := "gamma" |})]
            "beta_bg.wasm"
            {| ci_path := "/proj/node_modules/beta/beta_bg.wasm"; ci_name := "beta" |}
            _ _ _).
  - vm_compute. reflexivity.
  - intros f' e' [H|[]]. injection H as <- <-. vm_compute. discriminate.
  - vm_compute. reflexivity.
Defined.

End HookExtras.

(** ** [buildStart]: order of the compiles, failures and the manifest patch *)

Module BuildExtras.
Import Registry Build BuildClaims.

Lemma bind_keeps_execs {A B} (m : M A) (k : A -> M B) :
  (forall w, w_execs (snd (m w)) = w_execs w) ->
  (forall a w, w_execs (snd (k a w)) = w_execs w) ->
  forall w, w_execs (snd (bind m k w)) = w_execs w.
Proof.
  intros Hm Hk w. specialize (Hm w). unfold bind.
  destruct (m w) as [[a|e] w1]; simpl in Hm.
  - now rewrite Hk.
  - exact Hm.
Qed.

Lemma run_execs (dirname_ cratePath : string) (outDir : option string) (w : world) :
  w_execs (snd (_runWasmPackBuild dirname_ cratePath outDir w))
  = (w_execs w ++ [compile_call dirname_ outDir])%list.
Proof.
  unfold _runWasmPackBuild, bind, exec. fold (compile_call dirname_ outDir).
  destruct (w_exec w (compile_call dirname_ outDir)); reflexivity.
Qed.

Lemma prepare_try_execs (dirname_ cwd cratePath : string) (w : world) :
  w_execs (snd (prepare_try dirname_ cwd cratePath w))
  = (w_execs w ++ [compile_call dirname_ (Some (local_path cwd (_crateName cwd cratePath)))])%list.
Proof.
  unfold prepare_try. unfold bind at 1.
  pose proof (run_execs dirname_ cratePath (Some (local_path cwd (_crateName cwd cratePath))) w)
    as Hrun.
  destruct (_runWasmPackBuild _ _ _ w) as [[out|e] w1]; simpl in Hrun; [|exact Hrun].
  rewrite <- Hrun. clear Hrun. revert w1.
  apply bind_keeps_execs; [reflexivity|]. intros _.
  apply bind_keeps_execs.
  { intros w0. unfold readJson. destruct (w_fs w0 _) as [[]|]; reflexivity. }
  intros v. apply bind_keeps_execs; [reflexivity|].
  intros v' w0. reflexivity.
Qed.

Lemma prepareBuild_execs (h : host) (dirname_ cwd cratePath : string) (w : world) :
  w_execs (snd (prepareBuild h dirname_ cwd cratePath w))
  = (w_execs w ++ [compile_call dirname_ (Some (local_path cwd (_crateName cwd cratePath)))])%list.
Proof.
  rewrite <- prepare_try_execs. unfold prepareBuild, catch.
  destruct (prepare_try dirname_ cwd cratePath w) as [[u|e] w1]; [reflexivity|].
  unfold this_error, bind, log. simpl. destruct (error_throws h); reflexivity.
Qed.

(** [buildStart] compiles the crates one after the other in the order
    given: the commands run are those of the first [k] crates, all of them
    when [buildStart] completes; when [this.error] returns, it always
    completes. *)
Theorem buildStart_compile_order (h : host) (dirname_ cwd : string) (paths : list string)
    (w : world) :
  exists k, k <= length paths /\
    w_execs (snd (buildStart h dirname_ cwd paths w))
      = (w_execs w ++ map (fun p => compile_call dirname_ (Some (local_path cwd (_crateName cwd p))))
                        (firstn k paths))%list /\
    (fst (buildStart h dirname_ cwd paths w) = Ret tt -> k = length paths) /\
    (error_throws h = false -> fst (buildStart h dirname_ cwd paths w) = Ret tt).
Proof.
  revert w. induction paths as [|p rest IH]; intros w.
  - exists 0. simpl. rewrite app_nil_r. repeat split; auto.
  - pose proof (prepareBuild_execs h dirname_ cwd p w) as Hx.
    destruct (prepareBuild h dirname_ cwd p w) as [[u|e] w1] eqn:E.
    + assert (Hs : buildStart h dirname_ cwd (p :: rest) w = buildStart h dirname_ cwd rest w1).
      { simpl. unfold bind at 1. now rewrite E. }
      rewrite Hs. destruct (IH w1) as [k [Hk [Hex [Hret Hnt]]]].
      exists (S k). simpl in Hx. rewrite Hex, Hx, <- app_assoc.
      repeat split; auto; [simpl; lia | intros H; rewrite (Hret H); reflexivity].
    + assert (Hs : buildStart h dirname_ cwd (p :: rest) w = (Exc e, w1)).
      { simpl. unfold bind at 1. now rewrite E. }
      rewrite Hs. exists 1. simpl in Hx. cbn [fst snd]. rewrite Hx.
      repeat split; [simpl; lia | discriminate |].
      intros Hh. destruct h as [b]. simpl in Hh. subst b.
      destruct (prepareBuild_never_throws dirname_ cwd p w) as [w' [Hp _]].
      congruence.
Qed.

(** [buildStart] rejects only through [this.error]: the rejection reason is
    the error message of one of the crates, it is the last entry of the
    log, and it happens only when the host's [this.error] throws. *)
Theorem buildStart_rejection_is_reported (h : host) (dirname_ cwd : string)
    (paths : list string) (w w' : world) (e : string)
    (Hrej : buildStart h dirname_ cwd paths w = (Exc e, w')) :
  error_throws h = true /\
  (exists pre, w_log w' = (pre ++ [Error e])%list) /\
  (exists p cause, In p paths /\ e = error_message (_crateName cwd p) cause).
Proof.
  revert w Hrej. induction paths as [|p rest IH]; intros w Hrej; simpl in Hrej.
  - discriminate.
  - unfold bind at 1 in Hrej.
    destruct (prepareBuild h dirname_ cwd p w) as [[u|e0] w1] eqn:E.
    + destruct (IH w1 Hrej) as [Hh [Hl [q [c [Hq He]]]]].
      split; [exact Hh|]. split; [exact Hl|]. exists q, c. split; [now right | exact He].
    + injection Hrej as -> <-.
      unfold prepareBuild, catch in E.
      destruct (prepare_try dirname_ cwd p w) as [[u|c] w2]; [discriminate|].
      unfold this_error, bind, log in E. simpl in E.
      destruct (error_throws h); [|discriminate].
      injection E as <- <-. split; [reflexivity|]. simpl.
      split; [eexists; reflexivity|]. exists p, c. split; [now left | reflexivity].
Qed.

Lemma buildStart_rejection_is_reported_witness :
  buildStart vite_host Demo.dirname_ Demo.cwd ["./crates/a"; "./crates/b"] Demo.failing_world
  = (Exc (error_message "a" "wasm-pack execution error: Error: Command failed"),
     snd (buildStart vite_host Demo.dirname_ Demo.cwd ["./crates/a"; "./crates/b"]
            Demo.failing_world)) /\
  error_throws vite_host = true.
Proof.
  assert (H : buildStart vite_host Demo.dirname_ Demo.cwd ["./crates/a"; "./crates/b"]
                Demo.failing_world
              = (Exc (error_message "a" "wasm-pack execution error: Error: Command failed"),
                 snd (buildStart vite_host Demo.dirname_ Demo.cwd ["./crates/a"; "./crates/b"]
                        Demo.failing_world))).
  { vm_compute. reflexivity. }
  split; [exact H|].
  exact (proj1 (buildStart_rejection_is_reported _ _ _ _ _ _ _ H)).
Defined.

(** When the compile succeeds and leaves an object manifest, the [try]
    block completes and its whole effect is: one compile command run, one
    [this.warn] carrying the compiler's stderr, and the manifest rewritten
    as the same object with "type" set to "module" (other fields keep
    their values and positions); no other file is touched. *)
Theorem patch_success_effect (dirname_ cwd cratePath : string) (w : world)
    (out err : string) (ws : list (string * fentry)) (fields : list (string * jval))
    (Hexec : w_exec w (compile_call dirname_ (Some (local_path cwd (_crateName cwd cratePath))))
             = ExecDone out err ws)
    (Hman : apply_writes ws (w_fs w) (pkg_json_path cwd (_crateName cwd cratePath))
            = Some (FJson (JObj fields))) :
  prepare_try dirname_ cwd cratePath w
  = (Ret tt,
     {| w_fs := write_file (pkg_json_path cwd (_crateName cwd cratePath))
                  (FJson (JObj (JsMap.set "type" (JStr "module") fields)))
                  (apply_writes ws (w_fs w));
        w_exec := w_exec w;
        w_log := (w_log w ++ [Warn (chalk_bold "wasm-pack: " ++ "crate " ++ cratePath ++ " built"
                                    ++ String "010"%char EmptyString ++ err)])%list;
        w_execs := (w_execs w ++ [compile_call dirname_
                                   (Some (local_path cwd (_crateName cwd cratePath)))])%list |}).
Proof.
  unfold prepare_try. cbv zeta. unfold bind at 1. rewrite run_step, Hexec.
  unfold bind, this_warn, log, readJson, lift, writeJson. cbn [w_fs w_exec w_log w_execs].
  fold (pkg_json_path cwd (_crateName cwd cratePath)). rewrite Hman.
  reflexivity.
Qed.

Lemma patch_success_effect_witness :
  fst (prepare_try Demo.dirname_ Demo.cwd "./crates/demo"
         (Demo.manifest_world (JObj [("name", JStr "demo"); ("type", JStr "commonjs")])))
  = Ret tt.
Proof.
  rewrite (patch_success_effect Demo.dirname_ Demo.cwd "./crates/demo"
             (Demo.manifest_world (JObj [("name", JStr "demo"); ("type", JStr "commonjs")]))
             "" "[INFO]: Done"
             [("/proj/node_modules/demo/package.json",
               FJson (JObj [("name", JStr "demo"); ("type", JStr "commonjs")]))]
             [("name", JStr "demo"); ("type", JStr "commonjs")]); reflexivity.
Defined.

(** The [try] block of [prepareBuild] completes exactly when the compile
    reports no error and afterwards the manifest exists, parses, and holds
    a JSON object or array; a missing or unparsable manifest, or one
    holding null, a boolean, a number or a string, makes it fail. *)
Theorem prepare_try_succeeds_iff (dirname_ cwd cratePath : string) (w : world) :
  fst (prepare_try dirname_ cwd cratePath w) = Ret tt <->
  exists out err ws j,
    w_exec w (compile_call dirname_ (Some (local_path cwd (_crateName cwd cratePath))))
      = ExecDone out err ws /\
    apply_writes ws (w_fs w) (pkg_json_path cwd (_crateName cwd cratePath)) = Some (FJson j) /\
    ((exists f, j = JObj f) \/ (exists l, j = JArr l)).
Proof.
  unfold prepare_try. cbv zeta. unfold bind at 1. rewrite run_step.
  unfold bind, this_warn, log, readJson, lift, writeJson.
  destruct (w_exec w (compile_call dirname_ (Some (local_path cwd (_crateName cwd cratePath)))))
    as [error|out err ws]; cbn [w_fs w_exec w_log w_execs fst].
  - split; [discriminate|]. intros (o & e' & ws' & j & H & _). discriminate.
  - fold (pkg_json_path cwd (_crateName cwd cratePath)).
    destruct (apply_writes ws (w_fs w) (pkg_json_path cwd (_crateName cwd cratePath)))
      as [[j|t]|] eqn:Hm.
    + split.
      * intros H. exists out, err, ws, j. split; [reflexivity|]. split; [exact Hm|].
        destruct j; simpl in H; try discriminate; eauto.
      * intros (o & e' & ws' & j' & H1 & H2 & H3). injection H1 as <- <- <-.
        rewrite Hm in H2. injection H2 as <-.
        destruct H3 as [[f ->]|[l ->]]; reflexivity.
    + split; [discriminate|].
      intros (o & e' & ws' & j' & H1 & H2 & _). injection H1 as <- <- <-. congruence.
    + split; [discriminate|].
      intros (o & e' & ws' & j' & H1 & H2 & _). injection H1 as <- <- <-. congruence.
Qed.

End BuildExtras.

Module CrateNameFacts.
Import Str Registry BasenameFacts.

Lemma split_app_slash (s t cur : string) :
  exists l, split_slash_aux (s ++ String slash t) cur = (l ++ split_slash_aux t "")%list.
Proof.
  revert cur. induction s as [|c s IH]; intros cur; simpl.
  - exists [cur]. reflexivity.
  - destruct (Ascii.eqb c slash).
    + destruct (IH "") as [l Hl]. exists (cur :: l). now rewrite Hl.
    + apply IH.
Qed.

Lemma split_name_slash (b cur : string) :
  has_slash b = false -> split_slash_aux (b ++ "/") cur = [(cur ++ b)%string; ""].
Proof.
  revert cur. induction b as [|c b IH]; intros cur H; simpl.
  - now rewrite string_append_nil_r.
  - simpl in H. apply orb_false_iff in H as [Hc Hb]. rewrite Hc, (IH _ Hb).
    now rewrite string_append_assoc.
Qed.

Lemma split_tail (Y name : string) :
  has_slash name = false ->
  exists l, split_slash (Y ++ "/" ++ name ++ "/") = (l ++ [name; ""])%list.
Proof.
  intros Hs. unfold split_slash.
  destruct (split_app_slash Y (name ++ "/") "") as [l Hl].
  exists l. change ("/" ++ name ++ "/")%string with (String slash (name ++ "/")).
  rewrite Hl, (split_name_slash name "" Hs). reflexivity.
Qed.

Lemma normalize_segs_app (ab : bool) (acc l1 l2 : list string) :
  Path.normalize_segs ab acc (l1 ++ l2) = Path.normalize_segs ab (Path.normalize_segs ab acc l1) l2.
Proof.
  revert acc. induction l1 as [|x l1 IH]; intros acc; simpl; [reflexivity|].
  destruct (String.eqb x "" || String.eqb x "."); [apply IH|].
  destruct (String.eqb x ".."); [|apply IH].
  destruct acc as [|y acc']; [apply IH|].
  destruct (String.eqb y ".."); apply IH.
Qed.

Lemma normalize_segs_name (ab : bool) (acc : list string) (name : string) :
  name <> "" -> name <> "." -> name <> ".." ->
  Path.normalize_segs ab acc [name; ""] = name :: acc.
Proof.
  intros H1 H2 H3. apply String.eqb_neq in H1, H2, H3. simpl.
  rewrite H1, H2, H3. reflexivity.
Qed.

Lemma join_slash_cons (y : string) (m : list string) :
  m <> [] -> join_slash (y :: m) = (y ++ "/" ++ join_slash m)%string.
Proof. destruct m; [contradiction | reflexivity]. Qed.

Lemma join_slash_snoc (l : list string) (x : string) :
  join_slash (l ++ [x])%list
  = match l with [] => x | _ => (join_slash l ++ "/" ++ x)%string end.
Proof.
  induction l as [|y l IH]; [reflexivity|].
  rewrite <- app_comm_cons, join_slash_cons by (destruct l; discriminate).
  rewrite IH. destruct l as [|z l']; [reflexivity|].
  rewrite (join_slash_cons y (z :: l')) by discriminate.
  now rewrite string_append_assoc.
Qed.

Lemma normalize_tail (ab : bool) (Y name : string) :
  has_slash name = false -> name <> "" -> name <> "." -> name <> ".." ->
  Path.normalize_string (Y ++ "/" ++ name ++ "/") ab = name \/
  exists K, Path.normalize_string (Y ++ "/" ++ name ++ "/") ab = (K ++ "/" ++ name)%string.
Proof.
  intros Hs H1 H2 H3. unfold Path.normalize_string.
  destruct (split_tail Y name Hs) as [l Hl]. rewrite Hl, normalize_segs_app.
  rewrite normalize_segs_name by assumption. cbn [rev]. rewrite join_slash_snoc.
  destruct (rev (Path.normalize_segs ab [] l)); [left; reflexivity | right; eauto].
Qed.

Lemma basename_self (name : string) :
  has_slash name = false -> name <> "" -> Path.basename name = name.
Proof.
  intros Hs Hne. unfold Path.basename, split_slash. rewrite (split_no_slash name "" Hs).
  simpl. apply String.eqb_neq in Hne. now rewrite Hne.
Qed.

Lemma basename_resolved (abs : bool) (Y name : string) :
  has_slash name = false -> name <> "" -> name <> "." -> name <> ".." ->
  Path.basename
    (let r' := Path.normalize_string (Y ++ "/" ++ name ++ "/") (negb abs) in
     if abs then "/" ++ r' else if String.eqb r' "" then "." else r') = name.
Proof.
  intros Hs H1 H2 H3. cbv zeta.
  destruct (normalize_tail (negb abs) Y name Hs H1 H2 H3) as [E | [K E]]; rewrite E.
  - destruct abs.
    + exact (basename_snoc "" name Hs H1).
    + apply String.eqb_neq in H1 as H1'. rewrite H1'. apply basename_self; assumption.
  - destruct abs.
    + rewrite <- string_append_assoc. apply basename_snoc; assumption.
    + destruct (String.eqb (K ++ "/" ++ name) "") eqn:E'.
      * apply String.eqb_eq in E'. destruct K; discriminate.
      * apply basename_snoc; assumption.
Qed.

Lemma crateName_tail (cwd p Y name : string) :
  has_slash name = false -> name <> "" -> name <> "." -> name <> ".." ->
  p <> "" -> (p ++ "/")%string = (Y ++ "/" ++ name ++ "/")%string ->
  _crateName cwd p = name.
Proof.
  intros Hs H1 H2 H3 Hp HY. unfold _crateName, Path.resolve. simpl Path.resolve_from_right.
  apply String.eqb_neq in Hp. rewrite Hp.
  destruct (starts_with_slash p).
  - rewrite HY. exact (basename_resolved true Y name Hs H1 H2 H3).
  - rewrite HY.
    pose proof (basename_resolved (starts_with_slash cwd) (cwd ++ "/" ++ Y) name Hs H1 H2 H3)
      as B.
    rewrite !string_append_assoc in B. exact B.
Qed.

(** [_crateName] of a crate path whose last segment is an ordinary name
    (no slash, not "." or "..") is that name, whatever the working
    directory: for the bare name as for any "<dir>/<name>". *)
Theorem crateName_last_segment (cwd name : string)
    (Hs : has_slash name = false) (H1 : name <> "") (H2 : name <> ".") (H3 : name <> "..") :
  _crateName cwd name = name /\ forall dir, _crateName cwd (dir ++ "/" ++ name) = name.
Proof.
  split.
  - unfold _crateName, Path.resolve. simpl Path.resolve_from_right.
    apply String.eqb_neq in H1 as H1'. rewrite H1'.
    replace (starts_with_slash name) with false
      by (destruct name as [|c n]; [reflexivity|]; simpl in Hs |- *;
          now apply orb_false_iff in Hs as [-> _]).
    exact (basename_resolved (starts_with_slash cwd) cwd name Hs H1 H2 H3).
  - intros dir. apply (crateName_tail cwd (dir ++ "/" ++ name) dir name); try assumption.
    + destruct dir; discriminate.
    + now rewrite !string_append_assoc.
Qed.

Lemma crateName_last_segment_witness :
  has_slash "demo" = false /\ "demo" <> "" /\ "demo" <> "." /\ "demo" <> ".." /\
  _crateName "/proj" "demo" = "demo" /\
  (forall dir, _crateName "/proj" (dir ++ "/" ++ "demo") = "demo").
Proof.
  assert (Hs : has_slash "demo" = false) by reflexivity.
  assert (H1 : "demo" <> "") by discriminate.
  assert (H2 : "demo" <> ".") by discriminate.
  assert (H3 : "demo" <> "..") by discriminate.
  pose proof (crateName_last_segment "/proj" "demo" Hs H1 H2 H3) as [Hbare Hdir].
  repeat split; assumption.
Defined.

End CrateNameFacts.
